(** * A to-do list web application (src/app.py): model and properties

    The application is one Flask module: a single [Task] table reached
    through an SQLAlchemy session, and one request handler per route.  The
    development below embeds the handlers as functions in a small
    state-and-exception monad over the session, the listing sorts as an
    insertion sort over Python comparison of key tuples, and the dashboard
    streak as the loop the source runs. *)

From Stdlib Require Import ZArith String Ascii List Permutation Sorted Lia.
From stdpp Require Import base option list gmap strings.

Local Open Scope string_scope.
Local Open Scope Z_scope.

(** ** Python values: exceptions, dates, comparison *)

(** The exceptions the handlers can meet.  [NotFound] and [BadRequest] are
    werkzeug's HTTP exceptions (404 from [get_or_404], 400 from a missing
    form key); the others surface as a 500 response. *)
Inductive exn : Type :=
| KeyError
| TypeError
| ValueError
| OverflowError
| NotFound
| BadRequest.

Inductive result (A : Type) : Type :=
| Ok (a : A)
| Raise (e : exn).
Arguments Ok {A} a.
Arguments Raise {A} e.

Definition result_bind {A B : Type} (m : result A) (f : A -> result B) : result B :=
  match m with
  | Ok a => f a
  | Raise e => Raise e
  end.

Declare Scope result_scope.
Delimit Scope result_scope with result.
Notation "x <- m ;; k" := (result_bind m (fun x => k))
  (at level 100, m at next level, right associativity) : result_scope.
Local Open Scope result_scope.

(** [datetime.date], by its proleptic Gregorian ordinal ([date.toordinal]):
    comparison of dates is comparison of ordinals and adding a [timedelta]
    of whole days adds to the ordinal.  [date.min] is 0001-01-01 and
    [date.max] is 9999-12-31; arithmetic leaving that range raises. *)
Definition date : Type := Z.
Definition date_min : date := 1.
Definition date_max : date := 3652059.

Definition date_add (d : date) (days : Z) : result date :=
  if bool_decide (date_min <= d + days <= date_max)
  then Ok (d + days)
  else Raise OverflowError.

(** [datetime.datetime]: the calendar day and the microseconds since
    midnight.  [dt_date] is the [.date()] method. *)
Record datetime : Type := mkDatetime {
  dt_date : date;
  dt_micros : Z
}.

#[global] Instance datetime_eq_dec : EqDecision datetime.
Proof. solve_decision. Defined.

(** The Python objects that occur in sort keys. *)
Inductive pyobj : Type :=
| PyInt (z : Z)
| PyBool (b : bool)
| PyStr (s : string)
| PyDate (d : date).

Definition bool_int (b : bool) : Z := if b then 1 else 0.

(** [x == y]: [bool] is a subclass of [int]; objects of unrelated types are
    unequal (both sides return [NotImplemented]). *)
Definition py_eq (x y : pyobj) : bool :=
  match x, y with
  | PyInt a, PyInt b => a =? b
  | PyInt a, PyBool b => a =? bool_int b
  | PyBool a, PyInt b => bool_int a =? b
  | PyBool a, PyBool b => bool_int a =? bool_int b
  | PyStr a, PyStr b => String.eqb a b
  | PyDate a, PyDate b => a =? b
  | _, _ => false
  end.

(** [x < y]: numbers with numbers, strings with strings, dates with dates;
    anything else is a [TypeError]. *)
Definition py_lt (x y : pyobj) : result bool :=
  match x, y with
  | PyInt a, PyInt b => Ok (a <? b)
  | PyInt a, PyBool b => Ok (a <? bool_int b)
  | PyBool a, PyInt b => Ok (bool_int a <? b)
  | PyBool a, PyBool b => Ok (bool_int a <? bool_int b)
  | PyStr a, PyStr b => Ok (String.ltb a b)
  | PyDate a, PyDate b => Ok (a <? b)
  | _, _ => Raise TypeError
  end.

(** [u < v] on tuples: the first position where the items differ (by [==])
    decides, by [<] on those items; without one the shorter tuple is less. *)
Fixpoint tuple_lt (u v : list pyobj) : result bool :=
  match u, v with
  | x :: u', y :: v' => if py_eq x y then tuple_lt u' v' else py_lt x y
  | [], _ :: _ => Ok true
  | _, [] => Ok false
  end.

(** A sort key is a single object or a tuple of objects. *)
Inductive pykey : Type :=
| Single (x : pyobj)
| Tuple (items : list pyobj).

Definition key_lt (k1 k2 : pykey) : result bool :=
  match k1, k2 with
  | Single x, Single y => py_lt x y
  | Tuple u, Tuple v => tuple_lt u v
  | _, _ => Raise TypeError
  end.

(** ** [sorted(iterable, key=...)]

    [list.sort] computes the key of every element first, in order, and then
    sorts stably using only [<] on the keys.  The model is the insertion
    form of that sort: each element goes into the sorted prefix to the right
    of every element that is not greater (CPython's binary insertion, with a
    linear scan).  Where [<] is a strict weak order on the keys every stable
    sort returns that list.  An exception raised by a key or by a comparison
    aborts the sort. *)
Section Sorted.
Context {A : Type}.

Fixpoint insort (x : A * pykey) (l : list (A * pykey)) : result (list (A * pykey)) :=
  match l with
  | [] => Ok [x]
  | y :: l' =>
      b <- key_lt (snd x) (snd y);;
      if b then Ok (x :: y :: l')
      else (r <- insort x l';; Ok (y :: r))
  end.

Fixpoint decorate (key : A -> result pykey) (l : list A) : result (list (A * pykey)) :=
  match l with
  | [] => Ok []
  | x :: l' =>
      k <- key x;;
      r <- decorate key l';;
      Ok ((x, k) :: r)
  end.

Fixpoint insort_all (acc : list (A * pykey)) (l : list (A * pykey)) : result (list (A * pykey)) :=
  match l with
  | [] => Ok acc
  | x :: l' => acc' <- insort x acc;; insort_all acc' l'
  end.

Definition sorted (l : list A) (key : A -> result pykey) : result (list A) :=
  dl <- decorate key l;;
  r <- insort_all [] dl;;
  Ok (map fst r).

(** [p] may stand before [q] in a sorted list: [q]'s key is not less. *)
Definition not_after (p q : A * pykey) : Prop := key_lt (snd q) (snd p) = Ok false.

(** Every key of a decorated list is one of [K]. *)
Definition keyed (K : pykey -> Prop) (l : list (A * pykey)) : Prop :=
  Forall (fun p => K (snd p)) l.
End Sorted.

(** Strings are Python [str] values by their UTF-8 encoding, one [ascii]
    per byte (what a string literal of this file holds); comparing the
    encodings byte by byte is comparing the strings character by
    character. *)
Definition byte (c : ascii) : Z := Z.of_nat (nat_of_ascii c).

(** The white space [str.strip()] removes is what [str.isspace] accepts.
    In one byte: tab to carriage return, the four separators 28..31, and
    the space. *)
Definition is_space (c : ascii) : bool :=
  let n := Z.of_nat (nat_of_ascii c) in
  ((9 <=? n) && (n <=? 13)) || ((28 <=? n) && (n <=? 32)).

(** In two bytes: U+0085 and U+00A0. *)
Definition is_space2 (c1 c2 : ascii) : bool :=
  (byte c1 =? 194) && ((byte c2 =? 133) || (byte c2 =? 160)).

(** In three bytes: U+1680, U+2000 to U+200A, U+2028, U+2029, U+202F,
    U+205F and U+3000.  No character of four bytes is white space. *)
Definition is_space3 (c1 c2 c3 : ascii) : bool :=
  ((byte c1 =? 225) && (byte c2 =? 154) && (byte c3 =? 128))
  || ((byte c1 =? 226) && (byte c2 =? 128)
      && (((128 <=? byte c3) && (byte c3 <=? 138))
          || (byte c3 =? 168) || (byte c3 =? 169) || (byte c3 =? 175)))
  || ((byte c1 =? 226) && (byte c2 =? 129) && (byte c3 =? 159))
  || ((byte c1 =? 227) && (byte c2 =? 128) && (byte c3 =? 128)).

(** [str.lstrip()]: drop white space characters from the front. *)
Fixpoint lstrip (s : string) : string :=
  match s with
  | EmptyString => EmptyString
  | String c1 s1 =>
      if is_space c1 then lstrip s1
      else
        match s1 with
        | EmptyString => s
        | String c2 s2 =>
            if is_space2 c1 c2 then lstrip s2
            else
              match s2 with
              | EmptyString => s
              | String c3 s3 => if is_space3 c1 c2 c3 then lstrip s3 else s
              end
        end
  end.

(** A string of white space characters only. *)
Fixpoint blank (s : string) : bool :=
  match s with
  | EmptyString => true
  | String c1 s1 =>
      if is_space c1 then blank s1
      else
        match s1 with
        | EmptyString => false
        | String c2 s2 =>
            if is_space2 c1 c2 then blank s2
            else
              match s2 with
              | EmptyString => false
              | String c3 s3 => is_space3 c1 c2 c3 && blank s3
              end
        end
  end.

(** [str.rstrip()]: cut where only white space follows.  That is never
    inside a character: no encoding of a white space character starts with
    a continuation byte. *)
Fixpoint rstrip (s : string) : string :=
  match s with
  | EmptyString => EmptyString
  | String c s' => if blank s then EmptyString else String c (rstrip s')
  end.

Definition strip (s : string) : string := rstrip (lstrip s).

(** Truth value of a string: empty strings are false. *)
Definition str_truthy (s : string) : bool := negb (String.eqb s "").

(** ** The model class [Task] and the session *)

Record Task : Type := mkTask {
  id : Z;
  task : string;
  completed : bool;
  priority : string;
  due_date : option date;
  created_at : option datetime;
  completed_at : option datetime
}.

Definition set_id (v : Z) (t : Task) : Task :=
  mkTask v (task t) (completed t) (priority t) (due_date t) (created_at t) (completed_at t).
Definition set_task (v : string) (t : Task) : Task :=
  mkTask (id t) v (completed t) (priority t) (due_date t) (created_at t) (completed_at t).
Definition set_completed (v : bool) (t : Task) : Task :=
  mkTask (id t) (task t) v (priority t) (due_date t) (created_at t) (completed_at t).
Definition set_priority (v : string) (t : Task) : Task :=
  mkTask (id t) (task t) (completed t) v (due_date t) (created_at t) (completed_at t).
Definition set_due_date (v : option date) (t : Task) : Task :=
  mkTask (id t) (task t) (completed t) (priority t) v (created_at t) (completed_at t).
Definition set_completed_at (v : option datetime) (t : Task) : Task :=
  mkTask (id t) (task t) (completed t) (priority t) (due_date t) (created_at t) v.

(** What a handler runs against.  [rows] is the committed table, in rowid
    order.  The other session fields are the unit of work of the request:
    [identity_map] holds the objects loaded so far, keyed by primary key,
    and attribute assignments land there; [pending_new] and
    [pending_deleted] are the objects given to [db.session.add] and
    [db.session.delete].  Only [commit] writes them to [rows]; the session
    is removed when the request ends, which discards whatever was not
    committed.  [flashes] collects the [flash(message, category)] calls. *)
Record Env : Type := mkEnv {
  rows : list Task;
  identity_map : gmap Z Task;
  pending_new : list Task;
  pending_deleted : list Z;
  flashes : list (string * string)
}.

Definition handler (A : Type) : Type := Env -> result A * Env.

Definition handler_ret {A : Type} (a : A) : handler A := fun e => (Ok a, e).

Definition handler_bind {A B : Type} (m : handler A) (f : A -> handler B) : handler B :=
  fun e =>
    match m e with
    | (Ok a, e') => f a e'
    | (Raise x, e') => (Raise x, e')
    end.

Definition lift {A : Type} (r : result A) : handler A := fun e => (r, e).

Declare Scope handler_scope.
Delimit Scope handler_scope with handler.
Notation "x <- m ;; k" := (handler_bind m (fun x => k))
  (at level 100, m at next level, right associativity) : handler_scope.
Notation "m ;;; k" := (handler_bind m (fun _ => k))
  (at level 100, right associativity) : handler_scope.

(** The row with primary key [i], if any. *)
Definition get (i : Z) (table : list Task) : option Task :=
  List.find (fun t => id t =? i) table.

(** The keys a query can bind: the store's integers are 64-bit, and
    binding a larger one raises [OverflowError].  (The [<int:id>] converter
    of the routes takes digits only, so a negative id is never routed to a
    handler and the answer is a 404 as well.) *)
Definition bindable (i : Z) : bool := i <=? 9223372036854775807.

(** What looking up a key that has no row raises. *)
Definition absent (i : Z) : exn := if bindable i then NotFound else OverflowError.

(** [Task.query.get_or_404(i)]: the object for row [i], from the identity
    map when it was loaded before, else from the table (and then entered in
    the identity map).  When there is no such row: 404 for a key the query
    can bind, and the [OverflowError] of the binding for one it cannot.  (A
    table of the store holds no row under a key that cannot be bound, so
    testing the key after the lookup shows nothing the store does not.) *)
Definition get_or_404 (i : Z) : handler Task := fun e =>
  match identity_map e !! i with
  | Some t => (Ok t, e)
  | None =>
      match get i (rows e) with
      | Some t =>
          (Ok t, mkEnv (rows e) (<[i := t]> (identity_map e))
                       (pending_new e) (pending_deleted e) (flashes e))
      | None => (Raise (absent i), e)
      end
  end.

(** [obj.attr = v] on a loaded object: the object in the identity map
    changes; [setattr] returns it as it now reads. *)
Definition setattr (set : Task -> Task) (t : Task) : handler Task := fun e =>
  let t' := set t in
  (Ok t', mkEnv (rows e) (<[id t' := t']> (identity_map e))
                (pending_new e) (pending_deleted e) (flashes e)).

(** [Task.query.all()]. *)
Definition query_all : handler (list Task) := fun e => (Ok (rows e), e).

(** [db.session.add(obj)] and [db.session.delete(obj)]. *)
Definition session_add (t : Task) : handler unit := fun e =>
  (Ok tt, mkEnv (rows e) (identity_map e) (pending_new e ++ [t])
                (pending_deleted e) (flashes e)).

Definition session_delete (t : Task) : handler unit := fun e =>
  (Ok tt, mkEnv (rows e) (identity_map e) (pending_new e)
                (pending_deleted e ++ [id t]) (flashes e)).

(** The primary key the store gives the next inserted row: one more than
    the largest in the table, and 1 in an empty table.  (Once the largest
    key is the largest 64-bit integer the store picks an unused key at
    random instead; the model does not follow it there, and the statements
    below that depend on which key is given are about tables under that
    bound.) *)
Definition next_id (table : list Task) : Z :=
  match table with
  | [] => 1
  | t :: table' => 1 + fold_right (fun r m => Z.max (id r) m) (id t) table'
  end.

(** INSERT: the store assigns the primary key (an object given to
    [db.session.add] has none yet; its [id] field is a placeholder until
    then).  The column defaults of the model, [completed] false and
    [completed_at] NULL, are what [add] builds its object with. *)
Fixpoint insert_all (news : list Task) (table : list Task) : list Task :=
  match news with
  | [] => table
  | t :: news' => insert_all news' (table ++ [set_id (next_id table) t])
  end.

(** [db.session.commit()]: flush the unit of work (inserts, then updates of
    the loaded objects, then deletes) and start afresh. *)
Definition flush (e : Env) : list Task :=
  let inserted := insert_all (pending_new e) (rows e) in
  let updated := map (fun r => default r (identity_map e !! id r)) inserted in
  List.filter (fun r => negb (existsb (Z.eqb (id r)) (pending_deleted e))) updated.

Definition commit : handler unit := fun e =>
  (Ok tt, mkEnv (flush e) ∅ [] [] (flashes e)).

Definition flash (message category : string) : handler unit := fun e =>
  (Ok tt, mkEnv (rows e) (identity_map e) (pending_new e) (pending_deleted e)
                (flashes e ++ [(message, category)])).

(** [request.form[key]]: a missing key is a 400 response. *)
Definition form_item (form : gmap string string) (key : string) : handler string :=
  match form !! key with
  | Some v => handler_ret v
  | None => lift (Raise BadRequest)
  end.

(** ** Responses *)

Inductive endpoint : Type :=
| ep_index
| ep_edit (task_id : Z).

(** The template variables of the listing page that the properties below
    speak about ([percent] is a floating-point ratio and is left out). *)
Record IndexPage : Type := mkIndexPage {
  ix_tasks : list Task;
  ix_overdue_tasks : list Task;
  ix_due_today_tasks : list Task;
  ix_due_soon_tasks : list Task
}.

Record DashboardPage : Type := mkDashboardPage {
  db_total : Z;
  db_completed : Z;
  db_incomplete : Z;
  db_priority_data : list (string * Z);
  db_completions_chart : list Z;
  db_streak : Z
}.

Record IncompletePage : Type := mkIncompletePage {
  inc_incomplete_tasks : list Task;
  inc_total_incomplete : Z;
  inc_overdue_tasks : Z;
  inc_due_today_tasks : Z;
  inc_due_soon_tasks : Z
}.

Inductive Response : Type :=
| Redirect (target : endpoint)
| RenderIndex (page : IndexPage)
| RenderEdit (t : Task)
| RenderDashboard (page : DashboardPage)
| RenderIncomplete (page : IncompletePage)
| HttpError (status : Z).

Inductive Method : Type := GET | POST.

(** ** Sort keys and notification buckets of the listings *)

Definition priority_order : gmap string Z :=
  {[ "High" := 1; "Medium" := 2; "Low" := 3 ]}.

(** [lambda t: (priority_order[t.priority], t.completed)] *)
Definition key_priority (t : Task) : result pykey :=
  match priority_order !! priority t with
  | Some rank => Ok (Tuple [PyInt rank; PyBool (completed t)])
  | None => Raise KeyError
  end.

(** [lambda t: (t.due_date or '9999-12-31', t.completed)] *)
Definition key_due_date (t : Task) : result pykey :=
  Ok (Tuple [match due_date t with
             | Some d => PyDate d
             | None => PyStr "9999-12-31"
             end; PyBool (completed t)]).

(** [lambda t: t.id] *)
Definition key_created (t : Task) : result pykey := Ok (Single (PyInt (id t))).

(** [lambda t: (priority_order.get(t.priority, 4), t.due_date or date.max)] *)
Definition key_incomplete (t : Task) : result pykey :=
  Ok (Tuple [PyInt (default 4 (priority_order !! priority t));
             PyDate (default date_max (due_date t))]).

(** The [if sort == ...] chain of the listing page. *)
Definition listing (sort : string) (query : list Task) : result (list Task) :=
  if String.eqb sort "priority" then sorted query key_priority
  else if String.eqb sort "due_date" then sorted query key_due_date
  else if String.eqb sort "created" then sorted query key_created
  else Ok query.

(** The sort of the incomplete-tasks page. *)
Definition incomplete_listing (tasks : list Task) : result (list Task) :=
  sorted tasks key_incomplete.

(** [t.due_date and t.due_date < today_date], and its two siblings. *)
Definition is_overdue (today_date : date) (t : Task) : bool :=
  match due_date t with
  | Some d => d <? today_date
  | None => false
  end.

Definition is_due_today (today_date : date) (t : Task) : bool :=
  match due_date t with
  | Some d => d =? today_date
  | None => false
  end.

Definition is_due_soon (today_date soon_threshold : date) (t : Task) : bool :=
  match due_date t with
  | Some d => (today_date <? d) && (d <=? soon_threshold)
  | None => false
  end.

Definition overdue_tasks (today_date : date) (pending_tasks : list Task) : list Task :=
  List.filter (is_overdue today_date) pending_tasks.

Definition due_today_tasks (today_date : date) (pending_tasks : list Task) : list Task :=
  List.filter (is_due_today today_date) pending_tasks.

Definition due_soon_tasks (today_date soon_threshold : date) (pending_tasks : list Task)
  : list Task :=
  List.filter (is_due_soon today_date soon_threshold) pending_tasks.

(** ** The dashboard's seven-day window *)

Fixpoint result_map {A B : Type} (f : A -> result B) (l : list A) : result (list B) :=
  match l with
  | [] => Ok []
  | x :: l' =>
      y <- f x;;
      r <- result_map f l';;
      Ok (y :: r)
  end.

(** [[today - timedelta(days=i) for i in range(6, -1, -1)]] *)
Definition last_7_days (today : date) : result (list date) :=
  result_map (fun i => date_add today (- i)) [6; 5; 4; 3; 2; 1; 0].

(** [collections.Counter(iterable)] *)
Definition Counter (l : list date) : gmap Z Z :=
  fold_left (fun m d => <[d := default 0 (m !! d) + 1]> m) l ∅.

(** [t.completed_at.date() for t in completions if t.completed_at], over
    [Task.query.filter(Task.completed_at != None).all()]. *)
Definition completion_dates (table : list Task) : list date :=
  omap (fun t => dt_date <$> completed_at t)
       (List.filter (fun t => bool_decide (completed_at t <> None)) table).

Definition completions_per_day (table : list Task) : gmap Z Z :=
  Counter (completion_dates table).

(** The streak loop: [for day in reversed(last_7_days)], counting while the
    day has a completion and leaving at the first that has none. *)
Fixpoint streak_loop (per_day : gmap Z Z) (days : list date) (streak : Z) : Z :=
  match days with
  | [] => streak
  | day :: days' =>
      if default 0 (per_day !! day) >? 0
      then streak_loop per_day days' (streak + 1)
      else streak
  end.

Definition dashboard_streak (today : date) (table : list Task) : result Z :=
  days <- last_7_days today;;
  Ok (streak_loop (completions_per_day table) (rev days) 0).

(** ** The request handlers *)

Section Handlers.
Local Open Scope handler_scope.

(** [datetime.strptime(s, '%Y-%m-%d').date()]: the date a string denotes,
    or [None] where it raises [ValueError]. *)
Variable strptime : string -> option date.
(** [Task.task.ilike('%' + search + '%')], as the database evaluates it. *)
Variable ilike : string -> string -> bool.

Definition parse_date (s : string) : handler date :=
  match strptime s with
  | Some d => handler_ret d
  | None => lift (Raise ValueError)
  end.

(** [if due_date:] on the result of [request.form.get('due_date')]. *)
Definition given (due_date : option string) : option string :=
  match due_date with
  | Some s => if str_truthy s then Some s else None
  | None => None
  end.

(** The [query] of the listing page after its [filter_by] and [filter]
    calls, over the rows of the table. *)
Definition filtered_query (status search : string) (all : list Task) : list Task :=
  let query :=
    if String.eqb status "completed" then List.filter (fun t => completed t) all
    else if String.eqb status "pending" then List.filter (fun t => negb (completed t)) all
    else all in
  if str_truthy search then List.filter (fun t => ilike (task t) search) query
  else query.

Definition index (today_date : date) (args : gmap string string) : handler Response :=
  let status := default "all" (args !! "status") in
  let sort := default "priority" (args !! "sort") in
  let search := strip (default "" (args !! "search")) in
  all <- query_all;;
  let query := filtered_query status search all in
  tasks <- lift (listing sort query);;
  soon_threshold <- lift (date_add today_date 1);;
  all <- query_all;;
  let pending_tasks := List.filter (fun t => negb (completed t)) all in
  handler_ret (RenderIndex
    (mkIndexPage tasks
                 (overdue_tasks today_date pending_tasks)
                 (due_today_tasks today_date pending_tasks)
                 (due_soon_tasks today_date soon_threshold pending_tasks))).

Definition add (today : date) (utcnow : datetime) (form : gmap string string)
  : handler Response :=
  task_content <- form_item form "task";;
  priority <- form_item form "priority";;
  let store due_date :=
    (if str_truthy task_content
     then
       let new_task := mkTask 0 task_content false priority due_date (Some utcnow) None in
       session_add new_task;;;
       commit
     else handler_ret tt);;;
    handler_ret (Redirect ep_index) in
  match given (form !! "due_date") with
  | Some s =>
      due_date <- parse_date s;;
      if due_date <? today
      then
        flash "Due date cannot be in the past!" "danger";;;
        handler_ret (Redirect ep_index)
      else store (Some due_date)
  | None => store None
  end.

Definition complete (utcnow : datetime) (i : Z) : handler Response :=
  task <- get_or_404 i;;
  task <- setattr (set_completed (negb (completed task))) task;;
  task <- (if completed task
           then setattr (set_completed_at (Some utcnow)) task
           else setattr (set_completed_at None) task);;
  commit;;;
  handler_ret (Redirect ep_index).

Definition delete (i : Z) : handler Response :=
  task <- get_or_404 i;;
  session_delete task;;;
  commit;;;
  handler_ret (Redirect ep_index).

Definition edit (today : date) (method : Method) (task_id : Z) (form : gmap string string)
  : handler Response :=
  task <- get_or_404 task_id;;
  match method with
  | POST =>
      v <- form_item form "task";;
      task <- setattr (set_task v) task;;
      v <- form_item form "priority";;
      task <- setattr (set_priority v) task;;
      let finish :=
        commit;;;
        flash "Task updated successfully!" "success";;;
        handler_ret (Redirect ep_index) in
      match given (form !! "due_date") with
      | Some s =>
          due_date <- parse_date s;;
          if due_date <? today
          then
            flash "Due date cannot be in the past!" "danger";;;
            handler_ret (Redirect (ep_edit task_id))
          else
            task <- setattr (set_due_date (Some due_date)) task;;
            finish
      | None =>
          task <- setattr (set_due_date None) task;;
          finish
      end
  | GET => handler_ret (RenderEdit task)
  end.

(** Of the dashboard's numbers, the counts, the seven-day histogram and the
    streak; the completion rate and the average completion time are
    floating-point and the labels are formatting. *)
Definition dashboard (today : date) : handler Response :=
  all <- query_all;;
  let total_tasks := Z.of_nat (length all) in
  let completed_tasks := Z.of_nat (length (List.filter (fun t => completed t) all)) in
  let incomplete_tasks := total_tasks - completed_tasks in
  let priorities := ["High"; "Medium"; "Low"] in
  let priority_data :=
    map (fun p => (p, Z.of_nat (length (List.filter (fun t => String.eqb (priority t) p) all))))
        priorities in
  days <- lift (last_7_days today);;
  let per_day := completions_per_day all in
  let completions_chart := map (fun day => default 0 (per_day !! day)) days in
  let streak := streak_loop per_day (rev days) 0 in
  handler_ret (RenderDashboard
    (mkDashboardPage total_tasks completed_tasks incomplete_tasks priority_data
                     completions_chart streak)).

(** The counting loop of [incomplete_tasks]: one pass over the tasks,
    each with a due date adding to the first counter whose test it meets. *)
Definition count_due (today soon_threshold : date) (tasks : list Task) : Z * Z * Z :=
  fold_left
    (fun '(overdue, due_today, due_soon) t =>
       match due_date t with
       | Some d =>
           if d <? today then (overdue + 1, due_today, due_soon)
           else if d =? today then (overdue, due_today + 1, due_soon)
           else if d <=? soon_threshold then (overdue, due_today, due_soon + 1)
           else (overdue, due_today, due_soon)
       | None => (overdue, due_today, due_soon)
       end)
    tasks (0, 0, 0).

(** The body of [incomplete_tasks] inside its [try]. *)
Definition incomplete_tasks_body (today : date) : handler Response :=
  all <- query_all;;
  let incomplete_tasks := List.filter (fun t => negb (completed t)) all in
  match incomplete_tasks with
  | [] =>
      soon_threshold <- lift (date_add today 1);;
      handler_ret (RenderIncomplete (mkIncompletePage [] 0 0 0 0))
  | _ =>
      let total_incomplete := Z.of_nat (length incomplete_tasks) in
      soon_threshold <- lift (date_add today 1);;
      let '(overdue, due_today, due_soon) :=
        count_due today soon_threshold incomplete_tasks in
      incomplete_tasks <- lift (incomplete_listing incomplete_tasks);;
      handler_ret (RenderIncomplete
        (mkIncompletePage incomplete_tasks total_incomplete overdue due_today due_soon))
  end.

(** [except Exception]: flash and go back to the listing. *)
Definition incomplete_tasks (today : date) : handler Response := fun e =>
  match incomplete_tasks_body today e with
  | (Ok r, e') => (Ok r, e')
  | (Raise _, e') =>
      (flash "An error occurred while loading incomplete tasks." "danger";;;
       handler_ret (Redirect ep_index)) e'
  end.

(** *** Serving a request *)

Inductive Request : Type :=
| ReqIndex (args : gmap string string)
| ReqAdd (form : gmap string string)
| ReqComplete (i : Z)
| ReqDelete (i : Z)
| ReqEdit (method : Method) (task_id : Z) (form : gmap string string)
| ReqDashboard
| ReqIncompleteTasks.

Definition dispatch (today : date) (utcnow : datetime) (req : Request) : handler Response :=
  match req with
  | ReqIndex args => index today args
  | ReqAdd form => add today utcnow form
  | ReqComplete i => complete utcnow i
  | ReqDelete i => delete i
  | ReqEdit method task_id form => edit today method task_id form
  | ReqDashboard => dashboard today
  | ReqIncompleteTasks => incomplete_tasks today
  end.

(** A request starts with an empty session over the table.  When the
    handler is done, or has raised, the session is removed: the table is
    what was committed. *)
Definition begin (table : list Task) : Env := mkEnv table ∅ [] [] [].

Definition response_of (r : result Response) : Response :=
  match r with
  | Ok resp => resp
  | Raise NotFound => HttpError 404
  | Raise BadRequest => HttpError 400
  | Raise _ => HttpError 500
  end.

Definition serve (today : date) (utcnow : datetime) (req : Request) (table : list Task)
  : Response * list Task :=
  let '(r, e) := dispatch today utcnow req (begin table) in
  (response_of r, rows e).

(** The messages the request flashed. *)
Definition flashed (today : date) (utcnow : datetime) (req : Request) (table : list Task)
  : list (string * string) :=
  flashes (snd (dispatch today utcnow req (begin table))).

(** The tables the application can get to from the empty one. *)
Inductive reachable : list Task -> Prop :=
| reachable_empty : reachable []
| reachable_serve (today : date) (utcnow : datetime) (req : Request) (table : list Task) :
    reachable table -> reachable (snd (serve today utcnow req table)).
End Handlers.


(** * Vocabulary of the properties *)

(** Lexicographic [<] on pairs of integers: what [<] on two-item key tuples
    of numbers, booleans and dates comes to. *)
Definition lex_lt (p q : Z * Z) : bool :=
  (fst p <? fst q) || ((fst p =? fst q) && (snd p <? snd q)).

(** The key tuples [(int, bool)] of the priority sort and [(int, date)] of
    the incomplete-tasks sort, and the pair of integers each one stands for. *)
Definition int_bool_key (k : pykey) : Prop :=
  exists r c, k = Tuple [PyInt r; PyBool c].

Definition int_date_key (k : pykey) : Prop :=
  exists r d, k = Tuple [PyInt r; PyDate d].

Definition key_pair (k : pykey) : Z * Z :=
  match k with
  | Tuple [PyInt r; PyBool c] => (r, bool_int c)
  | Tuple [PyInt r; PyDate d] => (r, d)
  | _ => (0, 0)
  end.

Definition valid_priority (p : string) : Prop :=
  p = "High" \/ p = "Medium" \/ p = "Low".

(** The order the priority listing promises between two tasks. *)
Definition must_precede (a b : Task) : Prop :=
  (priority a = "High" /\ priority b = "Medium") \/
  (priority a = "Medium" /\ priority b = "Low") \/
  (priority a = "High" /\ priority b = "Low") \/
  (priority a = priority b /\ completed a = false /\ completed b = true).

(** A handler that never commits: whatever the session, the table is the
    same after it as before. *)
Definition keeps_rows {A : Type} (h : handler A) : Prop :=
  forall e, rows (snd (h e)) = rows e.

(** The row [add] inserts. *)
Definition created_task (table : list Task) (task_content priority_text : string)
    (due : option date) (utcnow : datetime) : Task :=
  mkTask (next_id table) task_content false priority_text due (Some utcnow) None.

(** The object [complete] leaves behind for a task [t]. *)
Definition toggled (utcnow : datetime) (t : Task) : Task :=
  if completed t
  then set_completed_at None (set_completed false t)
  else set_completed_at (Some utcnow) (set_completed true t).

(** The object a successful [edit] leaves behind for a task [t]. *)
Definition edited (task_content priority_text : string) (due : option date) (t : Task)
  : Task :=
  set_due_date due (set_priority priority_text (set_task task_content t)).

(** [UPDATE ... WHERE id = i] with the values of [t']. *)
Definition replace_row (i : Z) (t' : Task) (table : list Task) : list Task :=
  map (fun r => if id r =? i then t' else r) table.

(** [DELETE ... WHERE id = i]. *)
Definition remove_row (i : Z) (table : list Task) : list Task :=
  List.filter (fun r => negb (id r =? i)) table.

(** The pairing the model keeps between the two completion fields. *)
Definition completion_consistent (t : Task) : Prop :=
  completed_at t <> None <-> completed t = true.

(** An identity map that holds the one object [t], under the key [i]. *)
Definition holds_only (i : Z) (t : Task) (im : gmap Z Task) : Prop :=
  forall k, im !! k = if decide (k = i) then Some t else None.

(** The number of tasks whose completion timestamp falls on day [d]. *)
Definition completions_on (table : list Task) (d : date) : Z :=
  Z.of_nat (length (List.filter
    (fun t => match completed_at t with
              | Some stamp => dt_date stamp =? d
              | None => false
              end) table)).

(** A task that is not done and has a due date: what the notification
    buckets are drawn from. *)
Definition pending_with_due_date (table : list Task) (t : Task) : Prop :=
  In t table /\ completed t = false /\ due_date t <> None.

(** Whether a task has a due date, and the key the due-date sort computes
    for it. *)
Definition has_due_date (t : Task) : bool :=
  match due_date t with
  | Some _ => true
  | None => false
  end.

Definition due_date_key (t : Task) : pykey :=
  Tuple [match due_date t with
         | Some d => PyDate d
         | None => PyStr "9999-12-31"
         end; PyBool (completed t)].

(** A decorated list of the due-date sort whose tasks all have a due date
    ([b] true) or all have none ([b] false). *)
Definition uniform (b : bool) (l : list (Task * pykey)) : Prop :=
  Forall (fun p => snd p = due_date_key (fst p) /\ has_due_date (fst p) = b) l.

(** * Sample data

    A clock, a date parser that knows three strings, a pattern match that
    accepts everything, and a few tasks: concrete inputs on which the
    statements below are run. *)

(** 2026-11-03 *)
Definition sample_today : date := 739923.
Definition sample_utcnow : datetime := mkDatetime 739923 43200000000.

Definition sample_strptime (s : string) : option date :=
  if String.eqb s "2020-01-01" then Some 737425
  else if String.eqb s "2026-11-10" then Some 739930
  else if String.eqb s "2030-06-15" then Some 741243
  else None.

Definition sample_ilike (text pattern : string) : bool := true.

Definition sample_high_done : Task :=
  mkTask 1 "file taxes" true "High" (Some 739930)
         (Some (mkDatetime 739920 0)) (Some (mkDatetime 739922 600)).
Definition sample_high : Task :=
  mkTask 2 "book flights" false "High" None (Some (mkDatetime 739921 0)) None.
Definition sample_medium : Task :=
  mkTask 3 "water plants" false "Medium" (Some 739923) (Some (mkDatetime 739921 5)) None.
Definition sample_low : Task :=
  mkTask 4 "sort photos" false "Low" (Some 739924) (Some (mkDatetime 739921 9)) None.
Definition sample_late : Task :=
  mkTask 5 "return books" false "Medium" (Some 739900) (Some (mkDatetime 739890 0)) None.
Definition sample_far : Task :=
  mkTask 6 "renew passport" false "Low" (Some 739930) (Some (mkDatetime 739921 9)) None.
Definition sample_urgent : Task :=
  mkTask 7 "call plumber" false "Urgent" None (Some (mkDatetime 739921 9)) None.

Definition sample_table : list Task :=
  [sample_high_done; sample_high; sample_medium; sample_low; sample_late; sample_far].

Definition sample_streak_table : list Task :=
  [mkTask 1 "file taxes" true "High" None
          (Some (mkDatetime 739900 0)) (Some (mkDatetime 739923 100));
   mkTask 2 "book flights" true "Low" None
          (Some (mkDatetime 739900 0)) (Some (mkDatetime 739922 100));
   mkTask 3 "sort photos" true "Low" None
          (Some (mkDatetime 739900 0)) (Some (mkDatetime 739922 900));
   mkTask 4 "water plants" true "Medium" None
          (Some (mkDatetime 739900 0)) (Some (mkDatetime 739920 100));
   mkTask 5 "return books" false "Medium" None (Some (mkDatetime 739900 0)) None].

Definition form_of (task_content priority_text : string) (due : option string)
  : gmap string string :=
  let base : gmap string string := {[ "task" := task_content; "priority" := priority_text ]} in
  match due with
  | Some s => <["due_date" := s]> base
  | None => base
  end.

(** * The completed-tasks page *)

(** [date.weekday()]: Monday is 0; the day of ordinal 1 is a Monday. *)
Definition weekday (d : date) : Z := (d + 6) mod 7.

Record CompletedPage : Type := mkCompletedPage {
  cp_completed_tasks : list Task;
  cp_total_completed : Z;
  cp_completed_today : Z;
  cp_completed_this_week : Z
}.

(** The counting loop of [completed_tasks]: a task with a completion
    timestamp adds to [completed_today] when it was completed today and to
    [completed_this_week] when it was completed between the two ends of the
    week. *)
Definition count_completed (today week_start week_end : date) (tasks : list Task) : Z * Z :=
  fold_left
    (fun '(completed_today, completed_this_week) t =>
       match completed_at t with
       | Some stamp =>
           let completion_date := dt_date stamp in
           let completed_today :=
             if completion_date =? today then completed_today + 1 else completed_today in
           let completed_this_week :=
             if (week_start <=? completion_date) && (completion_date <=? week_end)
             then completed_this_week + 1 else completed_this_week in
           (completed_today, completed_this_week)
       | None => (completed_today, completed_this_week)
       end)
    tasks (0, 0).

Section CompletedTasks.
Local Open Scope handler_scope.

(** [ORDER BY completed_at DESC], as the database evaluates it. *)
Variable order_by_completed_at_desc : list Task -> list Task.

Definition completed_tasks (today : date) : handler CompletedPage :=
  all <- query_all;;
  let completed_tasks :=
    order_by_completed_at_desc (List.filter (fun t => completed t) all) in
  let total_completed := Z.of_nat (length completed_tasks) in
  week_start <- lift (date_add today (- weekday today));;
  week_end <- lift (date_add week_start 6);;
  let '(completed_today, completed_this_week) :=
    count_completed today week_start week_end completed_tasks in
  handler_ret
    (mkCompletedPage completed_tasks total_completed completed_today completed_this_week).
End CompletedTasks.

(** * Further vocabulary *)

(** The number of tasks of a list that pass a test. *)
Definition count_if (test : Task -> bool) (tasks : list Task) : Z :=
  Z.of_nat (length (List.filter test tasks)).

(** A task completed on day [d]. *)
Definition completed_on (d : date) (t : Task) : bool :=
  match completed_at t with
  | Some stamp => dt_date stamp =? d
  | None => false
  end.

(** A task completed in the Monday-to-Sunday week of [today]: the ordinals
    1..7 are the first such week. *)
Definition completed_in_week_of (today : date) (t : Task) : bool :=
  match completed_at t with
  | Some stamp => (dt_date stamp - 1) / 7 =? (today - 1) / 7
  | None => false
  end.

(** The characters [str.isspace] accepts, each by its UTF-8 encoding:
    U+0009 to U+000D, U+001C to U+0020, U+0085, U+00A0, U+1680, U+2000 to
    U+200A, U+2028, U+2029, U+202F, U+205F and U+3000. *)
Definition bytes (l : list nat) : string :=
  fold_right (fun n s => String (ascii_of_nat n) s) EmptyString l.

Definition white_space : list string :=
  map bytes
      [[9]; [10]; [11]; [12]; [13]; [28]; [29]; [30]; [31]; [32];
       [194; 133]; [194; 160]; [225; 154; 128];
       [226; 128; 128]; [226; 128; 129]; [226; 128; 130]; [226; 128; 131];
       [226; 128; 132]; [226; 128; 133]; [226; 128; 134]; [226; 128; 135];
       [226; 128; 136]; [226; 128; 137]; [226; 128; 138];
       [226; 128; 168]; [226; 128; 169]; [226; 128; 175];
       [226; 129; 159]; [227; 128; 128]]%nat.

(** A string of white space characters only (the empty string among
    them): a sequence of such characters, one after the other. *)
Definition all_space (s : string) : Prop :=
  exists chars,
    Forall (fun c => In c white_space) chars /\
    s = fold_right String.append EmptyString chars.

(** The status and the stripped search text the listing page reads off the
    query string. *)
Definition status_of (args : gmap string string) : string :=
  default "all" (args !! "status").
Definition sort_of (args : gmap string string) : string :=
  default "priority" (args !! "sort").
Definition search_of (args : gmap string string) : string :=
  strip (default "" (args !! "search")).


(** Primary keys grow along the table. *)
Definition ids_increasing (table : list Task) : Prop :=
  StronglySorted Z.lt (map id table).

(** The key tuples [(date, bool)] and [(str, bool)] of the due-date sort. *)
Definition date_bool_key (k : pykey) : Prop :=
  exists d c, k = Tuple [PyDate d; PyBool c].

Definition sentinel_bool_key (k : pykey) : Prop :=
  exists c, k = Tuple [PyStr "9999-12-31"; PyBool c].

Definition int_key (k : pykey) : Prop := exists z, k = Single (PyInt z).

(** The pair of integers a key of the due-date or creation sort stands for. *)
Definition key_pair' (k : pykey) : Z * Z :=
  match k with
  | Tuple [PyDate d; PyBool c] => (d, bool_int c)
  | Tuple [PyStr _; PyBool c] => (0, bool_int c)
  | Single (PyInt z) => (z, 0)
  | _ => (0, 0)
  end.

(** The order the due-date listing keeps between two tasks when it returns:
    the earlier date first, and of two tasks with the same date (or both
    without one) the incomplete one first. *)
Definition due_precedes (a b : Task) : Prop :=
  match due_date a, due_date b with
  | Some da, Some db =>
      da < db \/ (da = db /\ completed a = false /\ completed b = true)
  | None, None => completed a = false /\ completed b = true
  | _, _ => False
  end.

(** The rank and date the incomplete-tasks page sorts a task by. *)
Definition incomplete_rank (t : Task) : Z := default 4 (priority_order !! priority t).
Definition incomplete_due (t : Task) : date := default date_max (due_date t).

(** What a successful request is allowed to have done to a row [r'] of the
    table it leaves: [r'] stands for a row [r] of the table it found, with
    the same identity and creation time. *)
Definition continues (table : list Task) (r' : Task) : Prop :=
  exists r, In r table /\ id r = id r' /\ created_at r = created_at r'.

(** Descending insertion by completion timestamp, rows without one last:
    one way to evaluate [ORDER BY completed_at DESC]. *)
Definition stamp_key (t : Task) : Z * Z :=
  match completed_at t with
  | Some stamp => (dt_date stamp, dt_micros stamp)
  | None => (-1, 0)
  end.

Fixpoint insert_desc (t : Task) (l : list Task) : list Task :=
  match l with
  | [] => [t]
  | u :: l' => if lex_lt (stamp_key u) (stamp_key t) then t :: u :: l' else u :: insert_desc t l'
  end.

Definition sample_order_by (l : list Task) : list Task :=
  fold_left (fun acc t => insert_desc t acc) l [].

(** * Properties *)

(** ** The sort *)

Lemma StronglySorted_lookup {A : Type} (R : A -> A -> Prop) (l : list A) :
  StronglySorted R l ->
  forall (i j : nat) (a b : A),
    l !! i = Some a -> l !! j = Some b -> (i < j)%nat -> R a b.
Proof.
  induction 1 as [|x l Hs IH Hx]; intros i j a b Hi Hj Hlt.
  - discriminate.
  - destruct j as [|j]; [lia|]. simpl in Hj.
    destruct i as [|i]; simpl in Hi.
    + injection Hi as <-. rewrite List.Forall_forall in Hx. apply Hx.
      apply list_elem_of_In. eapply list_elem_of_lookup_2. exact Hj.
    + apply (IH i j); auto. lia.
Qed.

Section SortedFacts.
Context {A : Type}.

(** [K] holds of the keys in play: on them [<] never raises and is a strict
    weak order. *)
Variable K : pykey -> Prop.
Hypothesis K_total : forall a b, K a -> K b -> exists r, key_lt a b = Ok r.
Hypothesis K_asym : forall a b, K a -> K b -> key_lt a b = Ok true -> key_lt b a = Ok false.
Hypothesis K_trans : forall a b c, K a -> K b -> K c ->
  key_lt b a = Ok false -> key_lt c b = Ok false -> key_lt c a = Ok false.

Lemma insort_sorted (x : A * pykey) (l : list (A * pykey)) :
  K (snd x) -> keyed K l -> StronglySorted not_after l ->
  exists l', insort x l = Ok l' /\ Permutation (x :: l) l' /\
             keyed K l' /\ StronglySorted not_after l'.
Proof.
  unfold keyed. intros Kx. induction l as [|y l IH]; intros Hk Hs.
  - exists [x]. repeat split; auto.
    constructor; constructor.
  - inversion Hk as [|? ? Ky Hk']; subst.
    inversion Hs as [|? ? Hs' Hy]; subst.
    simpl. destruct (K_total _ _ Kx Ky) as [r Hr]. rewrite Hr. simpl.
    destruct r.
    + exists (x :: y :: l). repeat split; auto.
      constructor; auto. constructor.
      * unfold not_after. apply K_asym; auto.
      * rewrite List.Forall_forall in *. intros z Hz. unfold not_after.
        apply K_trans with (b := snd y); auto.
        apply (Hy z Hz).
    + destruct (IH Hk' Hs') as (l' & E & P & Kl' & Sl'). rewrite E. simpl.
      exists (y :: l'). repeat split; auto.
      * rewrite perm_swap. constructor. exact P.
      * constructor; auto.
        rewrite List.Forall_forall in *. intros z Hz.
        apply Permutation_sym in P.
        apply (Permutation_in _ P) in Hz. destruct Hz as [<-|Hz]; auto.
Qed.

Lemma insort_all_sorted (l acc : list (A * pykey)) :
  keyed K l -> keyed K acc -> StronglySorted not_after acc ->
  exists r, insort_all acc l = Ok r /\ Permutation (acc ++ l) r /\
            keyed K r /\ StronglySorted not_after r.
Proof.
  revert acc. induction l as [|x l IH]; intros acc Hl Hacc Hs.
  - exists acc. rewrite app_nil_r. auto.
  - inversion Hl as [|? ? Kx Hl']; subst.
    destruct (insort_sorted x acc Kx Hacc Hs) as (acc' & E & P & Ka & Sa).
    simpl. rewrite E. simpl.
    destruct (IH acc' Hl' Ka Sa) as (r & Er & Pr & Kr & Sr).
    exists r. repeat split; auto.
    rewrite <- Pr. rewrite <- P.
    rewrite Permutation_app_comm. simpl. constructor. apply Permutation_app_comm.
Qed.

Lemma decorate_total (key : A -> result pykey) (l : list A) :
  (forall x, In x l -> exists k, key x = Ok k /\ K k) ->
  exists dl, decorate key l = Ok dl /\ map fst dl = l /\ keyed K dl /\
             Forall (fun p => key (fst p) = Ok (snd p)) dl.
Proof.
  induction l as [|x l IH]; intros H.
  - exists []. repeat split; constructor.
  - destruct (H x (or_introl eq_refl)) as (k & Ek & Kk).
    destruct IH as (dl & E & M & Kd & F). { intros y Hy. apply H. now right. }
    exists ((x, k) :: dl). simpl. rewrite Ek, E. simpl.
    repeat split; try constructor; auto. now rewrite M.
Qed.

(** What [sorted] returns when its keys are in [K]: a permutation of the
    input in which no element has a key less than that of an earlier one. *)
Lemma sorted_spec (key : A -> result pykey) (l : list A) :
  (forall x, In x l -> exists k, key x = Ok k /\ K k) ->
  exists l', sorted l key = Ok l' /\ Permutation l l' /\
    StronglySorted (fun a b => exists ka kb,
      key a = Ok ka /\ key b = Ok kb /\ key_lt kb ka = Ok false) l'.
Proof.
  intros H. destruct (decorate_total key l H) as (dl & E & M & Kd & F).
  destruct (insort_all_sorted dl [] Kd) as (r & Er & Pr & Kr & Sr).
  { constructor. } { constructor. }
  exists (map fst r). unfold sorted. rewrite E. simpl. rewrite Er. simpl.
  repeat split.
  - rewrite <- M. apply Permutation_map. exact Pr.
  - assert (Fr : Forall (fun p => key (fst p) = Ok (snd p)) r).
    { rewrite List.Forall_forall in *. intros p Hp. apply F.
      apply (Permutation_in _ (Permutation_sym Pr)). exact Hp. }
    clear - Sr Fr. induction Sr as [|p r Sr IH Hp]; simpl.
    + constructor.
    + inversion Fr as [|? ? Fp Fr']; subst. constructor; auto.
      rewrite List.Forall_forall in *. intros b Hb.
      apply in_map_iff in Hb. destruct Hb as (q & <- & Hq).
      exists (snd p), (snd q). repeat split; auto. apply (Hp q Hq).
Qed.

(** The same, by positions: an element whose key is less than another's
    stands before it. *)
Lemma sorted_order (key : A -> result pykey) (l : list A) :
  (forall x, In x l -> exists k, key x = Ok k /\ K k) ->
  exists l', sorted l key = Ok l' /\ Permutation l l' /\
    forall (i j : nat) (a b : A) (ka kb : pykey),
      l' !! i = Some a -> l' !! j = Some b ->
      key a = Ok ka -> key b = Ok kb -> key_lt ka kb = Ok true -> (i < j)%nat.
Proof.
  intros H. destruct (sorted_spec key l H) as (l' & E & P & S).
  exists l'. split; [exact E|]. split; [exact P|].
  intros i j a b ka kb Hi Hj Ea Eb Hlt.
  assert (Ka : K ka).
  { destruct (H a) as (k & Ek & Kk).
    - apply (Permutation_in _ (Permutation_sym P)).
      apply list_elem_of_In. eapply list_elem_of_lookup_2. exact Hi.
    - congruence. }
  assert (Kb : K kb).
  { destruct (H b) as (k & Ek & Kk).
    - apply (Permutation_in _ (Permutation_sym P)).
      apply list_elem_of_In. eapply list_elem_of_lookup_2. exact Hj.
    - congruence. }
  destruct (Nat.lt_trichotomy i j) as [Hij|[Hij|Hij]]; [exact Hij| |]; exfalso.
  - subst j. rewrite Hi in Hj. injection Hj as <-.
    rewrite Ea in Eb. injection Eb as <-.
    pose proof (K_asym _ _ Ka Ka Hlt). congruence.
  - destruct (StronglySorted_lookup _ _ S j i b a Hj Hi Hij) as (kb' & ka' & Kb' & Ka' & Hn).
    congruence.
Qed.
End SortedFacts.

(** ** Key tuples that compare like pairs of integers *)

Section LexKeys.
Variable K : pykey -> Prop.
Hypothesis K_lex : forall a b, K a -> K b ->
  key_lt a b = Ok (lex_lt (key_pair a) (key_pair b)).

Lemma lex_total (a b : pykey) : K a -> K b -> exists r, key_lt a b = Ok r.
Proof. intros Ha Hb. eexists. apply K_lex; assumption. Qed.

Lemma lex_asym (a b : pykey) :
  K a -> K b -> key_lt a b = Ok true -> key_lt b a = Ok false.
Proof.
  intros Ha Hb. rewrite !K_lex by assumption. unfold lex_lt.
  intros [= H]. f_equal.
  destruct (key_pair a) as [a1 a2], (key_pair b) as [b1 b2]; simpl in *. lia.
Qed.

Lemma lex_trans (a b c : pykey) :
  K a -> K b -> K c ->
  key_lt b a = Ok false -> key_lt c b = Ok false -> key_lt c a = Ok false.
Proof.
  intros Ha Hb Hc. rewrite !K_lex by assumption. unfold lex_lt.
  intros [= H1] [= H2]. f_equal.
  destruct (key_pair a) as [a1 a2], (key_pair b) as [b1 b2], (key_pair c) as [c1 c2];
    simpl in *. lia.
Qed.
End LexKeys.

Lemma int_bool_key_lex (a b : pykey) :
  int_bool_key a -> int_bool_key b ->
  key_lt a b = Ok (lex_lt (key_pair a) (key_pair b)).
Proof.
  intros (r1 & c1 & ->) (r2 & c2 & ->). unfold lex_lt. simpl.
  destruct (r1 =? r2) eqn:E; destruct c1, c2; simpl; f_equal; lia.
Qed.

Lemma int_date_key_lex (a b : pykey) :
  int_date_key a -> int_date_key b ->
  key_lt a b = Ok (lex_lt (key_pair a) (key_pair b)).
Proof.
  intros (r1 & d1 & ->) (r2 & d2 & ->). unfold lex_lt. simpl.
  destruct (r1 =? r2) eqn:E; destruct (d1 =? d2) eqn:E'; simpl; f_equal; lia.
Qed.

(** ** The priority table *)

Lemma priority_order_High : priority_order !! "High" = Some 1.
Proof. reflexivity. Qed.

Lemma priority_order_Medium : priority_order !! "Medium" = Some 2.
Proof. reflexivity. Qed.

Lemma priority_order_Low : priority_order !! "Low" = Some 3.
Proof. reflexivity. Qed.

Lemma priority_order_other (p : string) :
  ~ valid_priority p -> priority_order !! p = None.
Proof.
  unfold valid_priority, priority_order. intros H.
  rewrite !lookup_insert_ne by (intros <-; tauto).
  apply lookup_singleton_ne. intros <-. tauto.
Qed.

Lemma key_priority_valid (t : Task) :
  valid_priority (priority t) ->
  exists r, key_priority t = Ok (Tuple [PyInt r; PyBool (completed t)]) /\
            priority_order !! priority t = Some r.
Proof.
  unfold key_priority.
  intros [H|[H|H]]; rewrite H; eexists; split; reflexivity.
Qed.

(** C6. Sorting the listing by priority, on tasks whose priorities are
    High, Medium or Low, returns a permutation of the tasks in which every
    High task stands before every Medium and every Low task, every Medium
    task before every Low task, and among tasks of one priority every
    incomplete task before every completed one. *)
Theorem priority_listing_order (l : list Task) :
  (forall t, In t l -> valid_priority (priority t)) ->
  exists l', listing "priority" l = Ok l' /\ Permutation l l' /\
    forall (i j : nat) (a b : Task),
      l' !! i = Some a -> l' !! j = Some b -> must_precede a b -> (i < j)%nat.
Proof.
  intros Hv.
  destruct (sorted_order int_bool_key
              (lex_total _ int_bool_key_lex) (lex_asym _ int_bool_key_lex)
              (lex_trans _ int_bool_key_lex) key_priority l)
    as (l' & E & P & S).
  { intros t Ht. destruct (key_priority_valid t (Hv t Ht)) as (r & Er & _).
    eexists. split; [exact Er|]. now exists r, (completed t). }
  exists l'. split; [exact E|]. split; [exact P|].
  intros i j a b Hi Hj Hab.
  assert (Va : valid_priority (priority a)).
  { apply Hv. apply (Permutation_in _ (Permutation_sym P)).
    apply list_elem_of_In. eapply list_elem_of_lookup_2. exact Hi. }
  assert (Vb : valid_priority (priority b)).
  { apply Hv. apply (Permutation_in _ (Permutation_sym P)).
    apply list_elem_of_In. eapply list_elem_of_lookup_2. exact Hj. }
  destruct (key_priority_valid a Va) as (ra & Ea & La).
  destruct (key_priority_valid b Vb) as (rb & Eb & Lb).
  apply (S i j a b _ _ Hi Hj Ea Eb).
  destruct Hab as [[Ha Hb]|[[Ha Hb]|[[Ha Hb]|(Hp & Ha & Hb)]]].
  - rewrite Ha in La. rewrite Hb in Lb.
    injection La as <-. injection Lb as <-. reflexivity.
  - rewrite Ha in La. rewrite Hb in Lb.
    injection La as <-. injection Lb as <-. reflexivity.
  - rewrite Ha in La. rewrite Hb in Lb.
    injection La as <-. injection Lb as <-. reflexivity.
  - rewrite Hp in La. rewrite La in Lb. injection Lb as <-.
    rewrite Ha, Hb. simpl. rewrite Z.eqb_refl. reflexivity.
Qed.

Lemma priority_listing_order_sample :
  exists l', listing "priority" sample_table = Ok l' /\ Permutation sample_table l' /\
    forall (i j : nat) (a b : Task),
      l' !! i = Some a -> l' !! j = Some b -> must_precede a b -> (i < j)%nat.
Proof.
  apply (priority_listing_order sample_table).
  intros t Ht. unfold valid_priority. simpl in Ht.
  decompose [or] Ht; subst; simpl; tauto.
Defined.

(** ** The priority sort raises on an unknown priority; the incomplete-tasks
    sort does not *)

Lemma decorate_raises {A : Type} (key : A -> result pykey) (e : exn) (l : list A) :
  (forall x, In x l -> key x = Raise e \/ exists k, key x = Ok k) ->
  (exists x, In x l /\ key x = Raise e) ->
  decorate key l = Raise e.
Proof.
  induction l as [|x l IH]; intros Hall (y & Hy & Ey).
  - destruct Hy.
  - simpl. destruct (Hall x (or_introl eq_refl)) as [E|(k & E)]; rewrite E; simpl.
    + reflexivity.
    + rewrite IH; [reflexivity| |].
      * intros z Hz. apply Hall. now right.
      * destruct Hy as [->|Hy]; [congruence|]. now exists y.
Qed.

Lemma key_priority_cases (t : Task) :
  key_priority t = Raise KeyError \/ exists k, key_priority t = Ok k.
Proof.
  unfold key_priority. destruct (priority_order !! priority t); eauto.
Qed.

Lemma priority_listing_raises (l : list Task) (t : Task) :
  In t l -> ~ valid_priority (priority t) -> listing "priority" l = Raise KeyError.
Proof.
  intros Ht Hp. unfold listing. simpl. unfold sorted.
  rewrite (decorate_raises key_priority KeyError l); [reflexivity| |].
  - intros x _. apply key_priority_cases.
  - exists t. split; [exact Ht|]. unfold key_priority.
    now rewrite (priority_order_other _ Hp).
Qed.

Lemma key_incomplete_int_date (t : Task) :
  exists k, key_incomplete t = Ok k /\ int_date_key k.
Proof. eexists. split; [reflexivity|]. eexists; eexists; reflexivity. Qed.

Lemma incomplete_listing_total (l : list Task) :
  exists l', incomplete_listing l = Ok l' /\ Permutation l l' /\
    forall (i j : nat) (a b : Task) (ka kb : pykey),
      l' !! i = Some a -> l' !! j = Some b ->
      key_incomplete a = Ok ka -> key_incomplete b = Ok kb ->
      key_lt ka kb = Ok true -> (i < j)%nat.
Proof.
  apply (sorted_order int_date_key
           (lex_total _ int_date_key_lex) (lex_asym _ int_date_key_lex)
           (lex_trans _ int_date_key_lex) key_incomplete l).
  intros t _. apply key_incomplete_int_date.
Qed.

(** ** The listing page, run *)

Section IndexFacts.
Variable strptime : string -> option date.
Variable ilike : string -> string -> bool.

(** What [index] comes to on any session: the sort, then the threshold,
    then the page; the session is left as it was. *)
Lemma index_run (today_date : date) (args : gmap string string) (e : Env) :
  index ilike today_date args e =
  (tasks <- listing (default "priority" (args !! "sort"))
              (filtered_query ilike (default "all" (args !! "status"))
                 (strip (default "" (args !! "search"))) (rows e));;
   soon_threshold <- date_add today_date 1;;
   let pending_tasks := List.filter (fun t => negb (completed t)) (rows e) in
   Ok (RenderIndex
         (mkIndexPage tasks
            (overdue_tasks today_date pending_tasks)
            (due_today_tasks today_date pending_tasks)
            (due_soon_tasks today_date soon_threshold pending_tasks))), e).
Proof.
  unfold index, handler_bind, query_all, lift, handler_ret.
  destruct (listing _ _) as [tasks|x]; simpl; [|reflexivity].
  destruct (date_add today_date 1) as [soon|x]; reflexivity.
Qed.

Lemma serve_index (today : date) (utcnow : datetime) (args : gmap string string)
      (table : list Task) :
  serve strptime ilike today utcnow (ReqIndex args) table =
  (response_of (fst (index ilike today args (begin table))), table).
Proof.
  unfold serve, dispatch. rewrite index_run. reflexivity.
Qed.
End IndexFacts.

(** ** Handlers that leave the table alone *)

Create HintDb keeps_rows.

Lemma keeps_rows_ret {A : Type} (a : A) : keeps_rows (handler_ret a).
Proof. intros e. reflexivity. Qed.

Lemma keeps_rows_lift {A : Type} (r : result A) : keeps_rows (lift r).
Proof. intros e. reflexivity. Qed.

Lemma keeps_rows_bind {A B : Type} (m : handler A) (f : A -> handler B) :
  keeps_rows m -> (forall a, keeps_rows (f a)) -> keeps_rows (handler_bind m f).
Proof.
  intros Hm Hf e. unfold handler_bind. specialize (Hm e).
  destruct (m e) as [[a|x] e']; simpl in *.
  - rewrite Hf. exact Hm.
  - exact Hm.
Qed.

Lemma keeps_rows_query_all : keeps_rows query_all.
Proof. intros e. reflexivity. Qed.

Lemma keeps_rows_get_or_404 (i : Z) : keeps_rows (get_or_404 i).
Proof.
  intros e. unfold get_or_404.
  destruct (identity_map e !! i); [reflexivity|].
  destruct (get i (rows e)); reflexivity.
Qed.

Lemma keeps_rows_setattr (set : Task -> Task) (t : Task) : keeps_rows (setattr set t).
Proof. intros e. reflexivity. Qed.

Lemma keeps_rows_flash (message category : string) : keeps_rows (flash message category).
Proof. intros e. reflexivity. Qed.

Lemma keeps_rows_form_item (form : gmap string string) (key : string) :
  keeps_rows (form_item form key).
Proof. intros e. unfold form_item. destruct (form !! key); reflexivity. Qed.

Lemma keeps_rows_parse_date (strptime : string -> option date) (s : string) :
  keeps_rows (parse_date strptime s).
Proof. intros e. unfold parse_date. destruct (strptime s); reflexivity. Qed.

#[local] Hint Resolve keeps_rows_ret keeps_rows_lift keeps_rows_query_all
  keeps_rows_get_or_404 keeps_rows_setattr keeps_rows_flash keeps_rows_form_item
  keeps_rows_parse_date : keeps_rows.

Ltac keeps_rows :=
  repeat first
    [ apply keeps_rows_bind; [|intros ?]
    | solve [auto with keeps_rows]
    | match goal with
      | |- keeps_rows (match ?x with _ => _ end) => destruct x
      | |- keeps_rows (let _ := _ in _) => cbv zeta
      end ].

Lemma keeps_rows_index (ilike : string -> string -> bool) (today_date : date)
      (args : gmap string string) :
  keeps_rows (index ilike today_date args).
Proof. unfold index. keeps_rows. Qed.

Lemma keeps_rows_dashboard (today : date) : keeps_rows (dashboard today).
Proof. unfold dashboard. keeps_rows. Qed.

Lemma keeps_rows_incomplete_tasks (today : date) : keeps_rows (incomplete_tasks today).
Proof.
  assert (Hb : keeps_rows (incomplete_tasks_body today)).
  { unfold incomplete_tasks_body. keeps_rows. }
  intros e. unfold incomplete_tasks. specialize (Hb e).
  destruct (incomplete_tasks_body today e) as [[r|x] e']; simpl in *; exact Hb.
Qed.

(** ** What [commit] writes *)

Lemma map_default_empty (table : list Task) :
  map (fun r => default r ((∅ : gmap Z Task) !! id r)) table = table.
Proof.
  induction table as [|r table IH]; simpl; [reflexivity|].
  rewrite lookup_empty. simpl. now rewrite IH.
Qed.

Lemma filter_none_deleted (table : list Task) :
  List.filter (fun r => negb (existsb (Z.eqb (id r)) [])) table = table.
Proof.
  induction table as [|r table IH]; simpl; [reflexivity|]. f_equal. exact IH.
Qed.

Lemma flush_insert (table : list Task) (t : Task) (fl : list (string * string)) :
  flush (mkEnv table ∅ [t] [] fl) = (table ++ [set_id (next_id table) t])%list.
Proof.
  unfold flush. cbn [pending_deleted pending_new rows identity_map insert_all].
  rewrite filter_none_deleted. apply map_default_empty.
Qed.

Lemma flush_update (table : list Task) (im : gmap Z Task) (i : Z) (t' : Task)
      (fl : list (string * string)) :
  holds_only i t' im ->
  flush (mkEnv table im [] [] fl) = replace_row i t' table.
Proof.
  intros Him. unfold flush, replace_row.
  cbn [pending_deleted pending_new rows identity_map insert_all].
  rewrite filter_none_deleted.
  apply map_ext. intros r. rewrite (Him (id r)).
  destruct (decide (id r = i)) as [E|E].
  - apply Z.eqb_eq in E. now rewrite E.
  - apply Z.eqb_neq in E. now rewrite E.
Qed.

Lemma flush_delete (table : list Task) (im : gmap Z Task) (i : Z) (t : Task)
      (fl : list (string * string)) :
  holds_only i t im ->
  id t = i ->
  flush (mkEnv table im [] [i] fl) = remove_row i table.
Proof.
  intros Him Hid. unfold flush, remove_row.
  cbn [pending_deleted pending_new rows identity_map insert_all existsb].
  induction table as [|r table IH]; [reflexivity|].
  cbn [map List.filter]. rewrite (Him (id r)).
  destruct (decide (id r = i)) as [E|E]; cbn [from_option]; unfold Datatypes.id.
  - rewrite Hid, E, Z.eqb_refl. cbn [orb negb]. exact IH.
  - apply Z.eqb_neq in E. rewrite E. cbn [orb negb]. f_equal. exact IH.
Qed.

Lemma holds_only_load (i : Z) (t : Task) : holds_only i t (<[i := t]> ∅).
Proof.
  intros k. destruct (decide (k = i)) as [->|E].
  - apply lookup_insert_eq.
  - rewrite lookup_insert_ne by congruence. apply lookup_empty.
Qed.

Lemma holds_only_set (i : Z) (t t' : Task) (im : gmap Z Task) :
  holds_only i t im -> holds_only i t' (<[i := t']> im).
Proof.
  intros H k. destruct (decide (k = i)) as [->|E].
  - apply lookup_insert_eq.
  - rewrite lookup_insert_ne by congruence. rewrite H.
    destruct (decide (k = i)); [contradiction|reflexivity].
Qed.

Ltac holds_only := repeat first [apply holds_only_load | eapply holds_only_set].

Lemma get_id (i : Z) (table : list Task) (t : Task) : get i table = Some t -> id t = i.
Proof.
  unfold get. intros H. apply find_some in H. destruct H as [_ H]. now apply Z.eqb_eq.
Qed.

Lemma get_In (i : Z) (table : list Task) (t : Task) : get i table = Some t -> In t table.
Proof. unfold get. intros H. apply find_some in H. tauto. Qed.

(** ** The mutating handlers, run *)

Section ServeFacts.
Variable strptime : string -> option date.
Variable ilike : string -> string -> bool.

Lemma serve_add (today : date) (utcnow : datetime) (form : gmap string string)
      (table : list Task) :
  serve strptime ilike today utcnow (ReqAdd form) table =
  match form !! "task", form !! "priority" with
  | Some task_content, Some priority_text =>
      match given (form !! "due_date") with
      | Some s =>
          match strptime s with
          | Some d =>
              if d <? today then (Redirect ep_index, table)
              else (Redirect ep_index,
                    if str_truthy task_content
                    then (table ++
                          [created_task table task_content priority_text (Some d) utcnow])%list
                    else table)
          | None => (HttpError 500, table)
          end
      | None =>
          (Redirect ep_index,
           if str_truthy task_content
           then (table ++ [created_task table task_content priority_text None utcnow])%list
           else table)
      end
  | _, _ => (HttpError 400, table)
  end.
Proof.
  unfold serve, dispatch, add, form_item, handler_bind, handler_ret, lift, parse_date.
  destruct (form !! "task") as [tc|]; simpl; [|reflexivity].
  destruct (form !! "priority") as [pr|]; simpl; [|reflexivity].
  destruct (given (form !! "due_date")) as [s|]; simpl.
  - destruct (strptime s) as [d|]; simpl; [|reflexivity].
    destruct (d <? today); simpl; [reflexivity|].
    destruct (str_truthy tc); simpl; [|reflexivity].
    now rewrite flush_insert.
  - destruct (str_truthy tc); simpl; [|reflexivity].
    now rewrite flush_insert.
Qed.

Lemma serve_complete (today : date) (utcnow : datetime) (i : Z) (table : list Task) :
  serve strptime ilike today utcnow (ReqComplete i) table =
  match get i table with
  | Some t => (Redirect ep_index, replace_row i (toggled utcnow t) table)
  | None => (response_of (Raise (absent i)), table)
  end.
Proof.
  unfold serve, dispatch, complete, handler_bind, get_or_404, begin.
  cbn [identity_map rows]. rewrite lookup_empty.
  destruct (get i table) as [t|] eqn:G; [|reflexivity].
  pose proof (get_id _ _ _ G) as Hid.
  unfold toggled, setattr, commit, handler_ret.
  destruct t as [i' tx c pr due cr ca]. simpl in Hid. subst i'.
  destruct c; cbn -[flush replace_row]; f_equal;
    apply flush_update; holds_only.
Qed.

Lemma serve_delete (today : date) (utcnow : datetime) (i : Z) (table : list Task) :
  serve strptime ilike today utcnow (ReqDelete i) table =
  match get i table with
  | Some t => (Redirect ep_index, remove_row i table)
  | None => (response_of (Raise (absent i)), table)
  end.
Proof.
  unfold serve, dispatch, delete, handler_bind, get_or_404, begin.
  cbn [identity_map rows]. rewrite lookup_empty.
  destruct (get i table) as [t|] eqn:G; [|reflexivity].
  pose proof (get_id _ _ _ G) as Hid.
  unfold session_delete, commit, handler_ret. cbn -[flush remove_row].
  rewrite Hid. f_equal. apply flush_delete with (t := t); [apply holds_only_load|exact Hid].
Qed.

Lemma serve_edit (today : date) (utcnow : datetime) (method : Method) (task_id : Z)
      (form : gmap string string) (table : list Task) :
  serve strptime ilike today utcnow (ReqEdit method task_id form) table =
  match get task_id table with
  | None => (response_of (Raise (absent task_id)), table)
  | Some t =>
      match method with
      | GET => (RenderEdit t, table)
      | POST =>
          match form !! "task", form !! "priority" with
          | Some task_content, Some priority_text =>
              match given (form !! "due_date") with
              | Some s =>
                  match strptime s with
                  | Some d =>
                      if d <? today then (Redirect (ep_edit task_id), table)
                      else (Redirect ep_index,
                            replace_row task_id
                              (edited task_content priority_text (Some d) t) table)
                  | None => (HttpError 500, table)
                  end
              | None =>
                  (Redirect ep_index,
                   replace_row task_id (edited task_content priority_text None t) table)
              end
          | _, _ => (HttpError 400, table)
          end
      end
  end.
Proof.
  unfold serve, dispatch, edit, handler_bind, get_or_404, begin.
  cbn [identity_map rows]. rewrite lookup_empty.
  destruct (get task_id table) as [t|] eqn:G; [|reflexivity].
  pose proof (get_id _ _ _ G) as Hid.
  destruct method; [reflexivity|].
  unfold form_item, setattr, commit, flash, handler_ret, lift, parse_date, edited.
  destruct t as [i' tx c pr0 due cr ca]. simpl in Hid. subst i'.
  destruct (form !! "task") as [tc|]; [|reflexivity].
  cbn -[flush replace_row given].
  destruct (form !! "priority") as [pr|]; [|reflexivity].
  cbn -[flush replace_row given].
  destruct (given (form !! "due_date")) as [s|]; cbn -[flush replace_row].
  - destruct (strptime s) as [d|]; [|reflexivity]. cbn -[flush replace_row].
    destruct (d <? today); cbn -[flush replace_row]; [reflexivity|].
    f_equal. apply flush_update; holds_only.
  - f_equal. apply flush_update; holds_only.
Qed.
End ServeFacts.

(** ** The completion fields stay paired *)

Lemma created_task_consistent (table : list Task) (tc pr : string) (due : option date)
      (utcnow : datetime) :
  completion_consistent (created_task table tc pr due utcnow).
Proof. unfold completion_consistent. simpl. split; [congruence|discriminate]. Qed.

Lemma toggled_consistent (utcnow : datetime) (t : Task) :
  completion_consistent (toggled utcnow t).
Proof.
  unfold completion_consistent, toggled.
  destruct (completed t); simpl; split; congruence.
Qed.

Lemma edited_consistent (tc pr : string) (due : option date) (t : Task) :
  completion_consistent t -> completion_consistent (edited tc pr due t).
Proof. unfold completion_consistent, edited. simpl. tauto. Qed.

Lemma Forall_replace_row (P : Task -> Prop) (i : Z) (t' : Task) (table : list Task) :
  P t' -> Forall P table -> Forall P (replace_row i t' table).
Proof.
  intros Ht. unfold replace_row. induction 1 as [|r table Hr _ IH]; simpl.
  - constructor.
  - constructor; [|exact IH]. destruct (id r =? i); assumption.
Qed.

Lemma Forall_remove_row (P : Task -> Prop) (i : Z) (table : list Task) :
  Forall P table -> Forall P (remove_row i table).
Proof.
  unfold remove_row. induction 1 as [|r table Hr _ IH]; simpl.
  - constructor.
  - destruct (negb (id r =? i)); [constructor|]; assumption.
Qed.

Lemma serve_keeps_rows (strptime : string -> option date) (ilike : string -> string -> bool)
      (today : date) (utcnow : datetime) (req : Request) (table : list Task) :
  keeps_rows (dispatch strptime ilike today utcnow req) ->
  snd (serve strptime ilike today utcnow req table) = table.
Proof.
  intros H. unfold serve. specialize (H (begin table)).
  destruct (dispatch _ _ _ _ _ _) as [r e]. exact H.
Qed.

Lemma serve_consistent (strptime : string -> option date) (ilike : string -> string -> bool)
      (today : date) (utcnow : datetime) (req : Request) (table : list Task) :
  Forall completion_consistent table ->
  Forall completion_consistent (snd (serve strptime ilike today utcnow req table)).
Proof.
  intros H. destruct req as [args|form|i|i|method task_id form| |].
  - rewrite serve_keeps_rows; [exact H|]. apply keeps_rows_index.
  - rewrite serve_add.
    assert (Hc : forall tc pr due,
      Forall completion_consistent
        (if str_truthy tc then table ++ [created_task table tc pr due utcnow] else table)).
    { intros tc pr due. destruct (str_truthy tc); [|exact H].
      apply Forall_app_2; [exact H|]. constructor; [|constructor].
      apply created_task_consistent. }
    destruct (form !! "task") as [tc|]; [|exact H].
    destruct (form !! "priority") as [pr|]; [|exact H].
    destruct (given (form !! "due_date")) as [s|]; [|apply Hc].
    destruct (strptime s) as [d|]; [|exact H].
    destruct (d <? today); [exact H|apply Hc].
  - rewrite serve_complete. destruct (get i table) as [t|]; [|exact H].
    apply Forall_replace_row; [apply toggled_consistent|exact H].
  - rewrite serve_delete. destruct (get i table) as [t|]; [|exact H].
    apply Forall_remove_row. exact H.
  - rewrite serve_edit. destruct (get task_id table) as [t|] eqn:G; [|exact H].
    assert (Ht : completion_consistent t).
    { rewrite List.Forall_forall in H. apply H. eapply get_In. exact G. }
    destruct method; [exact H|].
    destruct (form !! "task") as [tc|]; [|exact H].
    destruct (form !! "priority") as [pr|]; [|exact H].
    destruct (given (form !! "due_date")) as [s|].
    + destruct (strptime s) as [d|]; [|exact H].
      destruct (d <? today); [exact H|].
      apply Forall_replace_row; [apply edited_consistent; exact Ht|exact H].
    + apply Forall_replace_row; [apply edited_consistent; exact Ht|exact H].
  - rewrite serve_keeps_rows; [exact H|]. apply keeps_rows_dashboard.
  - rewrite serve_keeps_rows; [exact H|]. apply keeps_rows_incomplete_tasks.
Qed.

(** C1. In every table the application can reach from the empty one, every
    task has a completion timestamp exactly when it is completed; and every
    request (add, complete, edit, delete, and the pages that only read)
    served on a table where that holds leaves a table where it holds. *)
Theorem completion_invariant (strptime : string -> option date)
        (ilike : string -> string -> bool) :
  (forall table, reachable strptime ilike table -> Forall completion_consistent table) /\
  (forall today utcnow req table,
      Forall completion_consistent table ->
      Forall completion_consistent (snd (serve strptime ilike today utcnow req table))).
Proof.
  split.
  - induction 1 as [|today utcnow req table _ IH].
    + constructor.
    + apply serve_consistent. exact IH.
  - intros today utcnow req table. apply serve_consistent.
Qed.

Lemma completion_invariant_sample :
  Forall completion_consistent sample_table /\
  Forall completion_consistent
    (snd (serve sample_strptime sample_ilike sample_today sample_utcnow
            (ReqComplete 2) sample_table)).
Proof.
  assert (H : Forall completion_consistent sample_table).
  { repeat constructor; unfold completion_consistent; simpl; congruence. }
  split; [exact H|].
  apply (proj2 (completion_invariant sample_strptime sample_ilike)
               sample_today sample_utcnow (ReqComplete 2) sample_table H).
Defined.

(** ** Reading a row back *)

Lemma get_replace_row_same (i : Z) (t t' : Task) (table : list Task) :
  get i table = Some t -> id t' = i -> get i (replace_row i t' table) = Some t'.
Proof.
  unfold get, replace_row. intros G Hid.
  induction table as [|r table IH]; simpl in *; [discriminate|].
  destruct (id r =? i) eqn:E; simpl.
  - rewrite Hid, Z.eqb_refl. reflexivity.
  - rewrite E. apply IH. exact G.
Qed.

Lemma get_replace_row_other (i j : Z) (t' : Task) (table : list Task) :
  j <> i -> id t' = i -> get j (replace_row i t' table) = get j table.
Proof.
  unfold get, replace_row. intros Hne Hid.
  induction table as [|r table IH]; simpl; [reflexivity|].
  destruct (id r =? i) eqn:E; simpl.
  - apply Z.eqb_eq in E. rewrite Hid, E.
    apply Z.eqb_neq in Hne. rewrite Z.eqb_sym in Hne. rewrite Hne.
    exact IH.
  - destruct (id r =? j); [reflexivity|exact IH].
Qed.

Lemma toggled_fields (utcnow : datetime) (t : Task) :
  toggled utcnow t =
  mkTask (id t) (task t) (negb (completed t)) (priority t) (due_date t) (created_at t)
         (if completed t then None else Some utcnow).
Proof. unfold toggled. destruct t as [i tx c pr due cr ca]. destruct c; reflexivity. Qed.

(** C9. Toggling completion of an existing task redirects to the listing
    and leaves that task with [completed] negated and [completed_at] set to
    the current time when it became completed and to null when it became
    incomplete; its id, text, priority, due date and creation time are as
    before, and so is every other row. *)
Theorem complete_toggles (strptime : string -> option date)
        (ilike : string -> string -> bool) (today : date) (utcnow : datetime)
        (i : Z) (t : Task) (table : list Task) :
  get i table = Some t ->
  fst (serve strptime ilike today utcnow (ReqComplete i) table) = Redirect ep_index /\
  get i (snd (serve strptime ilike today utcnow (ReqComplete i) table)) =
    Some (mkTask (id t) (task t) (negb (completed t)) (priority t) (due_date t)
                 (created_at t) (if completed t then None else Some utcnow)) /\
  (forall j, j <> i ->
     get j (snd (serve strptime ilike today utcnow (ReqComplete i) table)) = get j table) /\
  length (snd (serve strptime ilike today utcnow (ReqComplete i) table)) = length table.
Proof.
  intros G. rewrite serve_complete, G. simpl fst. simpl snd.
  assert (Hid : id (toggled utcnow t) = i).
  { rewrite toggled_fields. simpl. eapply get_id. exact G. }
  split; [reflexivity|]. split; [|split].
  - rewrite <- toggled_fields. eapply get_replace_row_same; eauto.
  - intros j Hj. apply get_replace_row_other; assumption.
  - unfold replace_row. now rewrite length_map.
Qed.

Lemma complete_toggles_sample :
  get 2 sample_table = Some sample_high /\
  fst (serve sample_strptime sample_ilike sample_today sample_utcnow
         (ReqComplete 2) sample_table) = Redirect ep_index /\
  get 2 (snd (serve sample_strptime sample_ilike sample_today sample_utcnow
                (ReqComplete 2) sample_table)) =
    Some (mkTask 2 "book flights" true "High" None (Some (mkDatetime 739921 0))
                 (Some sample_utcnow)).
Proof.
  assert (G : get 2 sample_table = Some sample_high) by reflexivity.
  split; [exact G|].
  pose proof (complete_toggles sample_strptime sample_ilike sample_today sample_utcnow
                2 sample_high sample_table G) as (H1 & H2 & _).
  split; [exact H1|exact H2].
Defined.

(** ** Rejections *)

Section Rejections.
Variable strptime : string -> option date.
Variable ilike : string -> string -> bool.

Lemma flashed_add (today : date) (utcnow : datetime) (form : gmap string string)
      (table : list Task) :
  flashed strptime ilike today utcnow (ReqAdd form) table =
  match form !! "task", form !! "priority", given (form !! "due_date") with
  | Some _, Some _, Some s =>
      match strptime s with
      | Some d => if d <? today then [("Due date cannot be in the past!", "danger")] else []
      | None => []
      end
  | _, _, _ => []
  end.
Proof.
  unfold flashed, dispatch, add, form_item, handler_bind, handler_ret, lift, parse_date.
  destruct (form !! "task") as [tc|]; simpl; [|reflexivity].
  destruct (form !! "priority") as [pr|]; simpl; [|reflexivity].
  destruct (given (form !! "due_date")) as [s|]; simpl.
  - destruct (strptime s) as [d|]; simpl; [|reflexivity].
    destruct (d <? today); simpl; [reflexivity|].
    destruct (str_truthy tc); reflexivity.
  - destruct (str_truthy tc); reflexivity.
Qed.

Lemma flashed_edit_post (today : date) (utcnow : datetime) (task_id : Z)
      (form : gmap string string) (table : list Task) (t : Task) :
  get task_id table = Some t ->
  flashed strptime ilike today utcnow (ReqEdit POST task_id form) table =
  match form !! "task", form !! "priority" with
  | Some _, Some _ =>
      match given (form !! "due_date") with
      | Some s =>
          match strptime s with
          | Some d =>
              if d <? today then [("Due date cannot be in the past!", "danger")]
              else [("Task updated successfully!", "success")]
          | None => []
          end
      | None => [("Task updated successfully!", "success")]
      end
  | _, _ => []
  end.
Proof.
  intros G.
  unfold flashed, dispatch, edit, handler_bind, get_or_404, begin.
  cbn [identity_map rows]. rewrite lookup_empty, G.
  unfold form_item, setattr, commit, flash, handler_ret, lift, parse_date.
  destruct (form !! "task") as [tc|]; [|reflexivity].
  cbn -[flush given].
  destruct (form !! "priority") as [pr|]; [|reflexivity].
  cbn -[flush given].
  destruct (given (form !! "due_date")) as [s|]; cbn -[flush]; [|reflexivity].
  destruct (strptime s) as [d|]; [|reflexivity]. cbn -[flush].
  destruct (d <? today); reflexivity.
Qed.

Lemma given_nonempty (s : string) : s <> "" -> given (Some s) = Some s.
Proof.
  intros H. unfold given, str_truthy.
  destruct (String.eqb_spec s ""); [contradiction|reflexivity].
Qed.

(** C3, as the code has it. A POST to edit an existing task with a due
    date strictly before today leaves the table exactly as it was, so the
    stored task keeps its text, priority and due date; when the form carries
    the task and priority fields the response is the redirect back to the
    edit form, with the message that the due date cannot be in the past; and
    when either field is missing the answer is 400, given before the due
    date is looked at, with nothing flashed. *)
Theorem edit_past_due_date_rejected (today : date) (utcnow : datetime) (task_id : Z)
        (form : gmap string string) (table : list Task) (t : Task) (s : string) (d : date) :
  get task_id table = Some t ->
  form !! "due_date" = Some s -> s <> "" -> strptime s = Some d -> d < today ->
  snd (serve strptime ilike today utcnow (ReqEdit POST task_id form) table) = table /\
  get task_id (snd (serve strptime ilike today utcnow (ReqEdit POST task_id form) table))
    = Some t /\
  (is_Some (form !! "task") -> is_Some (form !! "priority") ->
   fst (serve strptime ilike today utcnow (ReqEdit POST task_id form) table)
     = Redirect (ep_edit task_id) /\
   flashed strptime ilike today utcnow (ReqEdit POST task_id form) table
     = [("Due date cannot be in the past!", "danger")]) /\
  (form !! "task" = None \/ form !! "priority" = None ->
   fst (serve strptime ilike today utcnow (ReqEdit POST task_id form) table)
     = HttpError 400 /\
   flashed strptime ilike today utcnow (ReqEdit POST task_id form) table = []).
Proof.
  intros G Hs Hne Hd Hlt.
  apply Z.ltb_lt in Hlt.
  rewrite (flashed_edit_post _ _ _ _ _ _ G).
  rewrite serve_edit, G, Hs, (given_nonempty _ Hne), Hd, Hlt.
  assert (E : snd (match form !! "task" with
                   | Some _ =>
                       match form !! "priority" with
                       | Some _ => (Redirect (ep_edit task_id), table)
                       | None => (HttpError 400, table)
                       end
                   | None => (HttpError 400, table)
                   end) = table).
  { destruct (form !! "task"); [|reflexivity]. destruct (form !! "priority"); reflexivity. }
  split; [exact E|]. split; [rewrite E; exact G|]. split.
  - intros [tc ->] [pr ->]. split; reflexivity.
  - intros [-> | ->]; [split; reflexivity|].
    destruct (form !! "task"); split; reflexivity.
Qed.

(** C4. A POST to add with a due date strictly before today creates no
    task: the table is exactly as it was; when the form carries the task
    and priority fields the response is the redirect to the listing, with
    the message that the due date cannot be in the past. *)
Theorem add_past_due_date_rejected (today : date) (utcnow : datetime)
        (form : gmap string string) (table : list Task) (s : string) (d : date) :
  form !! "due_date" = Some s -> s <> "" -> strptime s = Some d -> d < today ->
  snd (serve strptime ilike today utcnow (ReqAdd form) table) = table /\
  (is_Some (form !! "task") -> is_Some (form !! "priority") ->
   fst (serve strptime ilike today utcnow (ReqAdd form) table) = Redirect ep_index /\
   flashed strptime ilike today utcnow (ReqAdd form) table
     = [("Due date cannot be in the past!", "danger")]).
Proof.
  intros Hs Hne Hd Hlt.
  apply Z.ltb_lt in Hlt.
  rewrite flashed_add, serve_add, Hs, (given_nonempty _ Hne), Hd, Hlt.
  split.
  - destruct (form !! "task"); [|reflexivity]. destruct (form !! "priority"); reflexivity.
  - intros [tc ->] [pr ->]. split; reflexivity.
Qed.
End Rejections.

Lemma edit_past_due_date_rejected_sample :
  snd (serve sample_strptime sample_ilike sample_today sample_utcnow
         (ReqEdit POST 3 (form_of "water the plants" "High" (Some "2020-01-01")))
         sample_table) = sample_table /\
  get 3 (snd (serve sample_strptime sample_ilike sample_today sample_utcnow
                (ReqEdit POST 3 (form_of "water the plants" "High" (Some "2020-01-01")))
                sample_table)) = Some sample_medium /\
  fst (serve sample_strptime sample_ilike sample_today sample_utcnow
         (ReqEdit POST 3 (form_of "water the plants" "High" (Some "2020-01-01")))
         sample_table) = Redirect (ep_edit 3).
Proof.
  destruct (edit_past_due_date_rejected sample_strptime sample_ilike
              sample_today sample_utcnow 3
              (form_of "water the plants" "High" (Some "2020-01-01"))
              sample_table sample_medium "2020-01-01" 737425)
    as (H1 & H2 & H3 & _).
  - reflexivity.
  - reflexivity.
  - discriminate.
  - reflexivity.
  - reflexivity.
  - split; [exact H1|]. split; [exact H2|].
    apply H3; eexists; reflexivity.
Defined.

(** A POST to edit an existing task with a due date in the past and no
    priority field is not redirected back to the form: it is answered 400. *)
Lemma edit_past_due_date_without_priority :
  get 3 sample_table = Some sample_medium /\
  (<["due_date" := "2020-01-01"]> ({[ "task" := "water the plants" ]} : gmap string string))
    !! "due_date" = Some "2020-01-01" /\
  sample_strptime "2020-01-01" = Some 737425 /\
  737425 < sample_today /\
  fst (serve sample_strptime sample_ilike sample_today sample_utcnow
         (ReqEdit POST 3 (<["due_date" := "2020-01-01"]> {[ "task" := "water the plants" ]}))
         sample_table) = HttpError 400 /\
  fst (serve sample_strptime sample_ilike sample_today sample_utcnow
         (ReqEdit POST 3 (<["due_date" := "2020-01-01"]> {[ "task" := "water the plants" ]}))
         sample_table) <> Redirect (ep_edit 3).
Proof.
  assert (E : fst (serve sample_strptime sample_ilike sample_today sample_utcnow
         (ReqEdit POST 3 (<["due_date" := "2020-01-01"]> {[ "task" := "water the plants" ]}))
         sample_table) = HttpError 400) by (vm_compute; reflexivity).
  repeat split; try reflexivity; try exact E.
  rewrite E. discriminate.
Qed.

(** The rejection happens after the handler has assigned the new text and
    priority to the loaded object: the session is left holding a modified
    task, which is discarded with the session since nothing commits it. *)
Lemma edit_rejected_session_dirty :
  identity_map
    (snd (edit sample_strptime sample_today POST 3
            (form_of "water the plants" "High" (Some "2020-01-01"))
            (begin sample_table))) !! 3
  = Some (set_priority "High" (set_task "water the plants" sample_medium)).
Proof. vm_compute. reflexivity. Qed.

Lemma add_past_due_date_rejected_sample :
  snd (serve sample_strptime sample_ilike sample_today sample_utcnow
         (ReqAdd (form_of "buy stamps" "Low" (Some "2020-01-01"))) sample_table)
    = sample_table /\
  fst (serve sample_strptime sample_ilike sample_today sample_utcnow
         (ReqAdd (form_of "buy stamps" "Low" (Some "2020-01-01"))) sample_table)
    = Redirect ep_index.
Proof.
  destruct (add_past_due_date_rejected sample_strptime sample_ilike
              sample_today sample_utcnow
              (form_of "buy stamps" "Low" (Some "2020-01-01"))
              sample_table "2020-01-01" 737425)
    as (H1 & H2).
  - reflexivity.
  - discriminate.
  - reflexivity.
  - reflexivity.
  - split; [exact H1|]. apply H2; eexists; reflexivity.
Defined.

(** ** Empty task text *)




(** ** Notification buckets *)

Lemma date_add_ok (d : date) (days : Z) :
  date_min <= d + days <= date_max -> date_add d days = Ok (d + days).
Proof. intros H. unfold date_add. now rewrite bool_decide_eq_true_2. Qed.

Lemma In_overdue_tasks (today_date : date) (pending_tasks : list Task) (t : Task) :
  In t (overdue_tasks today_date pending_tasks) <->
  In t pending_tasks /\ exists d, due_date t = Some d /\ d < today_date.
Proof.
  unfold overdue_tasks, is_overdue. rewrite filter_In.
  destruct (due_date t) as [d|].
  - rewrite Z.ltb_lt. split.
    + intros [H1 H2]. eauto.
    + intros (H1 & d' & [= <-] & H2). auto.
  - split; [intros [_ H]; discriminate|intros (_ & d & H & _); discriminate].
Qed.

Lemma In_due_today_tasks (today_date : date) (pending_tasks : list Task) (t : Task) :
  In t (due_today_tasks today_date pending_tasks) <->
  In t pending_tasks /\ exists d, due_date t = Some d /\ d = today_date.
Proof.
  unfold due_today_tasks, is_due_today. rewrite filter_In.
  destruct (due_date t) as [d|].
  - rewrite Z.eqb_eq. split.
    + intros [H1 H2]. eauto.
    + intros (H1 & d' & [= <-] & H2). auto.
  - split; [intros [_ H]; discriminate|intros (_ & d & H & _); discriminate].
Qed.

Lemma In_due_soon_tasks (today_date soon_threshold : date) (pending_tasks : list Task)
      (t : Task) :
  In t (due_soon_tasks today_date soon_threshold pending_tasks) <->
  In t pending_tasks /\
  exists d, due_date t = Some d /\ today_date < d <= soon_threshold.
Proof.
  unfold due_soon_tasks, is_due_soon. rewrite filter_In.
  destruct (due_date t) as [d|].
  - rewrite andb_true_iff, Z.ltb_lt, Z.leb_le. split.
    + intros [H1 H2]. eauto.
    + intros (H1 & d' & [= <-] & H2). auto.
  - split; [intros [_ H]; discriminate|intros (_ & d & H & _); discriminate].
Qed.

Lemma In_pending (table : list Task) (t : Task) :
  In t (List.filter (fun t => negb (completed t)) table) <->
  In t table /\ completed t = false.
Proof. rewrite filter_In, negb_true_iff. reflexivity. Qed.

(** A pending task due later than tomorrow is in none of the three
    buckets: they do not cover the pending tasks that have a due date. *)
Lemma due_later_in_no_bucket :
  exists page,
    fst (serve sample_strptime sample_ilike sample_today sample_utcnow
           (ReqIndex ∅) sample_table) = RenderIndex page /\
    pending_with_due_date sample_table sample_far /\
    ~ In sample_far (ix_overdue_tasks page) /\
    ~ In sample_far (ix_due_today_tasks page) /\
    ~ In sample_far (ix_due_soon_tasks page).
Proof.
  eexists. split; [vm_compute; reflexivity|]. split.
  - unfold pending_with_due_date. split; [|split].
    + simpl. tauto.
    + reflexivity.
    + discriminate.
  - simpl. repeat split; intros H; decompose [or] H; try discriminate; assumption.
Qed.

(** C7, as the code has it. When the listing page is rendered, a pending
    task with a due date is in the overdue bucket iff the date is before
    today, in the due-today bucket iff it is today, and in the due-soon
    bucket iff it is after today and at most one day ahead; the buckets are
    pairwise disjoint, and together they hold exactly the pending tasks due
    at most one day ahead (a pending task due later is in none). *)
Theorem notification_buckets (strptime : string -> option date)
        (ilike : string -> string -> bool) (today : date) (utcnow : datetime)
        (args : gmap string string) (table tasks : list Task) :
  listing (default "priority" (args !! "sort"))
          (filtered_query ilike (default "all" (args !! "status"))
             (strip (default "" (args !! "search"))) table) = Ok tasks ->
  date_min <= today + 1 <= date_max ->
  exists page,
    fst (serve strptime ilike today utcnow (ReqIndex args) table) = RenderIndex page /\
    (forall t d, In t table -> completed t = false -> due_date t = Some d ->
       (In t (ix_overdue_tasks page) <-> d < today) /\
       (In t (ix_due_today_tasks page) <-> d = today) /\
       (In t (ix_due_soon_tasks page) <-> today < d <= today + 1)) /\
    (forall t,
       In t (ix_overdue_tasks page) \/ In t (ix_due_today_tasks page) \/
       In t (ix_due_soon_tasks page) <->
       In t table /\ completed t = false /\
       exists d, due_date t = Some d /\ d <= today + 1) /\
    (forall t,
       ~ (In t (ix_overdue_tasks page) /\ In t (ix_due_today_tasks page)) /\
       ~ (In t (ix_overdue_tasks page) /\ In t (ix_due_soon_tasks page)) /\
       ~ (In t (ix_due_today_tasks page) /\ In t (ix_due_soon_tasks page))).
Proof.
  intros Hl Hd.
  rewrite serve_index, index_run. cbn [begin rows fst].
  rewrite Hl, (date_add_ok _ _ Hd). cbn [result_bind response_of].
  eexists. split; [reflexivity|]. cbn [ix_overdue_tasks ix_due_today_tasks ix_due_soon_tasks].
  split; [|split].
  - intros t d Ht Hc Hdue.
    rewrite In_overdue_tasks, In_due_today_tasks, In_due_soon_tasks, !In_pending.
    split; [|split]; split.
    + intros (_ & d' & E & H). congruence.
    + eauto.
    + intros (_ & d' & E & H). congruence.
    + eauto.
    + intros (_ & d' & E & H). assert (d' = d) by congruence. lia.
    + intros H. split; [auto|]. exists d. auto.
  - intros t.
    rewrite In_overdue_tasks, In_due_today_tasks, In_due_soon_tasks, !In_pending.
    split.
    + intros [((Ht & Hc) & d & E & H)|[((Ht & Hc) & d & E & H)|((Ht & Hc) & d & E & H)]];
        (split; [exact Ht|]; split; [exact Hc|]; exists d; split; [exact E|lia]).
    + intros (Ht & Hc & d & E & H).
      destruct (Z.lt_trichotomy d today) as [L|[L|L]].
      * left. eauto.
      * right. left. eauto.
      * right. right. split; [auto|]. exists d. split; [exact E|lia].
  - intros t.
    rewrite In_overdue_tasks, In_due_today_tasks, In_due_soon_tasks.
    repeat split; intros [(_ & d1 & E1 & H1) (_ & d2 & E2 & H2)];
      assert (d1 = d2) by congruence; lia.
Qed.

Lemma notification_buckets_sample :
  exists page,
    fst (serve sample_strptime sample_ilike sample_today sample_utcnow
           (ReqIndex ∅) sample_table) = RenderIndex page /\
    (In sample_late (ix_overdue_tasks page) <-> 739900 < sample_today) /\
    (In sample_medium (ix_due_today_tasks page) <-> 739923 = sample_today) /\
    (In sample_low (ix_due_soon_tasks page) <-> sample_today < 739924 <= sample_today + 1).
Proof.
  destruct (notification_buckets sample_strptime sample_ilike sample_today sample_utcnow
              ∅ sample_table
              [sample_high; sample_high_done; sample_medium; sample_late;
               sample_low; sample_far])
    as (page & Hp & Hb & _).
  - reflexivity.
  - unfold date_min, date_max, sample_today. lia.
  - exists page. split; [exact Hp|].
    split; [|split].
    + apply (Hb sample_late 739900); [simpl; tauto|reflexivity|reflexivity].
    + apply (Hb sample_medium 739923); [simpl; tauto|reflexivity|reflexivity].
    + apply (Hb sample_low 739924); [simpl; tauto|reflexivity|reflexivity].
Defined.

(** ** The dashboard streak *)

Lemma Counter_fold (l : list date) (m : gmap Z Z) (d : date) :
  default 0 (fold_left (fun m d => <[d := default 0 (m !! d) + 1]> m) l m !! d) =
  default 0 (m !! d) + Z.of_nat (length (List.filter (fun x => x =? d) l)).
Proof.
  revert m. induction l as [|x l IH]; intros m; simpl.
  - lia.
  - rewrite IH. destruct (x =? d) eqn:E.
    + apply Z.eqb_eq in E. subst x. rewrite lookup_insert_eq. simpl length. simpl. lia.
    + apply Z.eqb_neq in E. rewrite lookup_insert_ne by exact E. reflexivity.
Qed.

Lemma completion_dates_count (table : list Task) (d : date) :
  Z.of_nat (length (List.filter (fun x => x =? d) (completion_dates table))) =
  completions_on table d.
Proof.
  unfold completion_dates, completions_on. f_equal.
  induction table as [|t table IH]; [reflexivity|].
  cbn [List.filter]. destruct (completed_at t) as [stamp|] eqn:E.
  - rewrite bool_decide_eq_true_2 by discriminate.
    cbn [omap list_omap]. rewrite E. cbn [fmap option_fmap option_map List.filter].
    destruct (dt_date stamp =? d); cbn [length]; [f_equal|]; exact IH.
  - rewrite bool_decide_eq_false_2 by tauto. exact IH.
Qed.

Lemma completions_per_day_get (table : list Task) (d : date) :
  default 0 (completions_per_day table !! d) = completions_on table d.
Proof.
  unfold completions_per_day, Counter. rewrite Counter_fold, lookup_empty.
  rewrite completion_dates_count. simpl. lia.
Qed.

Lemma completions_on_nonneg (table : list Task) (d : date) : 0 <= completions_on table d.
Proof. unfold completions_on. lia. Qed.

(** The loop counts the days at the front of its list that have a
    completion, and stops at the first that has none. *)
Lemma streak_loop_spec (per_day : gmap Z Z) (days : list date) (streak : Z) :
  exists n : nat,
    (n <= length days)%nat /\
    streak_loop per_day days streak = streak + Z.of_nat n /\
    (forall (i : nat) (day : date),
        (i < n)%nat -> days !! i = Some day -> default 0 (per_day !! day) > 0) /\
    (forall day : date, days !! n = Some day -> default 0 (per_day !! day) <= 0).
Proof.
  revert streak. induction days as [|day days IH]; intros streak.
  - exists 0%nat. simpl. repeat split; [lia|lia| |discriminate]. intros i d Hi. lia.
  - simpl. destruct (default 0 (per_day !! day) >? 0) eqn:E.
    + destruct (IH (streak + 1)) as (n & Hn & Hs & Hpos & Hstop).
      exists (S n). repeat split.
      * lia.
      * rewrite Hs. lia.
      * intros [|i] d Hi Hd; simpl in Hd.
        -- injection Hd as <-. lia.
        -- apply (Hpos i); [lia|exact Hd].
      * intros d Hd. simpl in Hd. apply Hstop. exact Hd.
    + exists 0%nat. repeat split.
      * lia.
      * lia.
      * intros i d Hi. lia.
      * intros d Hd. simpl in Hd. injection Hd as <-. lia.
Qed.

Lemma last_7_days_ok (today : date) :
  date_min + 6 <= today <= date_max ->
  last_7_days today =
  Ok [today + - 6; today + - 5; today + - 4; today + - 3; today + - 2; today + - 1;
      today + - 0].
Proof.
  intros H. unfold last_7_days, date_min, date_max in *. cbn [result_map].
  rewrite !date_add_ok by (unfold date_min, date_max; lia). reflexivity.
Qed.

Lemma dashboard_run (today : date) (e : Env) :
  fst (dashboard today e) =
  (days <- last_7_days today;;
   Ok (RenderDashboard
         (mkDashboardPage
            (Z.of_nat (length (rows e)))
            (Z.of_nat (length (List.filter (fun t => completed t) (rows e))))
            (Z.of_nat (length (rows e)) -
             Z.of_nat (length (List.filter (fun t => completed t) (rows e))))
            (map (fun p => (p, Z.of_nat (length
                    (List.filter (fun t => String.eqb (priority t) p) (rows e)))))
                 ["High"; "Medium"; "Low"])
            (map (fun day => default 0 (completions_per_day (rows e) !! day)) days)
            (streak_loop (completions_per_day (rows e)) (rev days) 0)))).
Proof.
  unfold dashboard, handler_bind, query_all, lift, handler_ret.
  destruct (last_7_days today); reflexivity.
Qed.

(** C8. Whatever completion timestamps the table holds, the dashboard's
    streak is the number of consecutive days, counted backward from today,
    that each have at least one completion: every day of the streak has
    one, the day before the streak (when the streak is shorter than the
    seven-day window) has none, and the streak is at most 7. *)
Theorem dashboard_streak_spec (strptime : string -> option date)
        (ilike : string -> string -> bool) (today : date) (utcnow : datetime)
        (table : list Task) :
  date_min + 6 <= today <= date_max ->
  exists page,
    fst (serve strptime ilike today utcnow ReqDashboard table) = RenderDashboard page /\
    dashboard_streak today table = Ok (db_streak page) /\
    0 <= db_streak page <= 7 /\
    (forall i, 0 <= i < db_streak page -> 0 < completions_on table (today - i)) /\
    (db_streak page < 7 -> completions_on table (today - db_streak page) = 0).
Proof.
  intros Ht.
  unfold serve, dispatch, dashboard_streak.
  pose proof (dashboard_run today (begin table)) as Hrun.
  destruct (dashboard today (begin table)) as [r e]. cbn [fst] in *. subst r.
  rewrite (last_7_days_ok _ Ht). cbn [result_bind response_of fst begin rows].
  eexists. split; [reflexivity|]. cbn [db_streak].
  split; [reflexivity|].
  match goal with
  | |- context [streak_loop ?pd ?days 0] =>
      destruct (streak_loop_spec pd days 0) as (n & Hn & Hs & Hpos & Hstop)
  end.
  rewrite Hs.
  assert (Hn7 : (n <= 7)%nat) by exact Hn.
  split; [lia|]. split.
  - intros i Hi.
    assert (Hlk : rev [today + - 6; today + - 5; today + - 4; today + - 3; today + - 2;
                       today + - 1; today + - 0] !! Z.to_nat i = Some (today - i)).
    { assert (Hi7 : 0 <= i < 7) by lia. clear - Hi7.
      assert (C : i = 0 \/ i = 1 \/ i = 2 \/ i = 3 \/ i = 4 \/ i = 5 \/ i = 6) by lia.
      decompose [or] C; subst i; simpl; f_equal; lia. }
    pose proof (Hpos (Z.to_nat i) (today - i) ltac:(lia) Hlk) as Hp.
    rewrite completions_per_day_get in Hp. lia.
  - intros Hlt.
    assert (Hlk : rev [today + - 6; today + - 5; today + - 4; today + - 3; today + - 2;
                       today + - 1; today + - 0] !! n = Some (today - (0 + Z.of_nat n))).
    { assert (C : (n = 0 \/ n = 1 \/ n = 2 \/ n = 3 \/ n = 4 \/ n = 5 \/ n = 6)%nat) by lia.
      decompose [or] C; subst n; simpl; f_equal; lia. }
    pose proof (Hstop _ Hlk) as Hz. rewrite completions_per_day_get in Hz.
    pose proof (completions_on_nonneg table (today - (0 + Z.of_nat n))). lia.
Qed.

Lemma dashboard_streak_sample :
  exists page,
    fst (serve sample_strptime sample_ilike sample_today sample_utcnow
           ReqDashboard sample_streak_table) = RenderDashboard page /\
    dashboard_streak sample_today sample_streak_table = Ok (db_streak page) /\
    0 <= db_streak page <= 7.
Proof.
  destruct (dashboard_streak_spec sample_strptime sample_ilike sample_today sample_utcnow
              sample_streak_table)
    as (page & Hp & Hs & Hb & _).
  - unfold date_min, date_max, sample_today. lia.
  - exists page. split; [exact Hp|]. split; [exact Hs|exact Hb].
Defined.

(** Completions today and yesterday (two of them), none the day before:
    a streak of two. *)
Example dashboard_streak_sample_value :
  dashboard_streak sample_today sample_streak_table = Ok 2.
Proof. vm_compute. reflexivity. Qed.

(** ** The due-date sort on a mix of dated and undated tasks

    The key of a task without a due date carries a string where the key of
    a task with one carries a date, and [<] between the two raises.  A sort
    by comparisons has to compare some undated task with some dated one
    (the first task of the other kind is compared with an earlier task), so
    the outcome below does not depend on the order in which it compares. *)

Lemma key_due_date_key (t : Task) : key_due_date t = Ok (due_date_key t).
Proof. reflexivity. Qed.

Lemma decorate_ok {A : Type} (key : A -> result pykey) (f : A -> pykey) (l : list A) :
  (forall x, key x = Ok (f x)) -> decorate key l = Ok (map (fun x => (x, f x)) l).
Proof.
  intros H. induction l as [|x l IH]; simpl; [reflexivity|].
  rewrite H, IH. reflexivity.
Qed.

Lemma due_date_key_lt_same (a b : Task) :
  has_due_date a = has_due_date b ->
  exists r, key_lt (due_date_key a) (due_date_key b) = Ok r.
Proof.
  unfold has_due_date, due_date_key.
  destruct (due_date a) as [da|], (due_date b) as [db|]; try discriminate; intros _; simpl;
    repeat match goal with
           | |- context [if ?c then _ else _] => destruct c
           end; eauto.
Qed.

Lemma due_date_key_lt_mixed (a b : Task) :
  has_due_date a = negb (has_due_date b) ->
  key_lt (due_date_key a) (due_date_key b) = Raise TypeError.
Proof.
  unfold has_due_date, due_date_key.
  destruct (due_date a) as [da|], (due_date b) as [db|]; try discriminate; reflexivity.
Qed.

Lemma insort_uniform (b : bool) (t : Task) (acc : list (Task * pykey)) :
  uniform b acc -> has_due_date t = b ->
  exists acc', insort (t, due_date_key t) acc = Ok acc' /\ uniform b acc' /\ acc' <> [].
Proof.
  unfold uniform. intros Hacc Ht.
  induction Hacc as [|[u k] acc [Hk Hu] Hacc IH]; cbn [insort snd fst] in *.
  - eexists. split; [reflexivity|]. split; [|discriminate]. constructor; auto.
  - subst k. destruct (due_date_key_lt_same t u) as [r Hr]; [congruence|].
    rewrite Hr. cbn [result_bind]. destruct r.
    + eexists. split; [reflexivity|]. split; [|discriminate].
      constructor; auto.
    + destruct IH as (acc' & E & Hu' & _). rewrite E. cbn [result_bind].
      eexists. split; [reflexivity|]. split; [|discriminate].
      constructor; auto.
Qed.

Lemma insort_mixed (b : bool) (t : Task) (acc : list (Task * pykey)) :
  uniform b acc -> acc <> [] -> has_due_date t = negb b ->
  insort (t, due_date_key t) acc = Raise TypeError.
Proof.
  unfold uniform. intros Hacc Hne Ht.
  destruct Hacc as [|[u k] acc [Hk Hu] _]; [contradiction|].
  cbn [insort snd fst] in *. subst k.
  rewrite due_date_key_lt_mixed; [reflexivity|congruence].
Qed.

Lemma insort_all_mixed (b : bool) (l : list Task) (acc : list (Task * pykey)) :
  uniform b acc -> acc <> [] ->
  (exists t, In t l /\ has_due_date t = negb b) ->
  insort_all acc (map (fun t => (t, due_date_key t)) l) = Raise TypeError.
Proof.
  revert acc. induction l as [|x l IH]; intros acc Hacc Hne (t & Ht & Hk).
  - destruct Ht.
  - simpl. destruct (bool_decide (has_due_date x = b)) eqn:E.
    + apply bool_decide_eq_true_1 in E.
      destruct (insort_uniform b x acc Hacc E) as (acc' & Ei & Hu & Hn).
      rewrite Ei. simpl. apply IH; auto.
      destruct Ht as [->|Ht]; [|eauto].
      rewrite E in Hk. destruct b; discriminate.
    + apply bool_decide_eq_false_1 in E.
      rewrite (insort_mixed b x acc Hacc Hne); [reflexivity|].
      destruct (has_due_date x), b; simpl; congruence.
Qed.

(** C2. Sorting the listing by due date on a list that holds both a task
    without a due date and a task with one does not return: comparing the
    string that stands for the absent date with a date raises TypeError. *)
Theorem due_date_listing_raises (l : list Task) :
  (exists a, In a l /\ due_date a = None) ->
  (exists b, In b l /\ due_date b <> None) ->
  listing "due_date" l = Raise TypeError.
Proof.
  intros (a & Ha & Na) (b & Hb & Nb).
  unfold listing. simpl. unfold sorted.
  rewrite (decorate_ok key_due_date due_date_key l key_due_date_key). simpl.
  destruct l as [|x l]; [destruct Ha|]. simpl.
  rewrite (insort_all_mixed (has_due_date x)); [reflexivity| | |].
  - constructor; [|constructor]. simpl. auto.
  - discriminate.
  - destruct (has_due_date x) eqn:E.
    + exists a. split.
      * destruct Ha as [->|Ha]; [|exact Ha].
        unfold has_due_date in E. rewrite Na in E. discriminate.
      * unfold has_due_date. now rewrite Na.
    + exists b. split.
      * destruct Hb as [->|Hb]; [|exact Hb].
        unfold has_due_date in E. destruct (due_date b); [discriminate|contradiction].
      * unfold has_due_date. destruct (due_date b); [reflexivity|contradiction].
Qed.

Lemma due_date_listing_raises_sample :
  listing "due_date" [sample_medium; sample_high] = Raise TypeError /\
  serve sample_strptime sample_ilike sample_today sample_utcnow
        (ReqIndex {[ "sort" := "due_date" ]}) [sample_high; sample_medium]
    = (HttpError 500, [sample_high; sample_medium]).
Proof.
  split.
  - apply (due_date_listing_raises [sample_medium; sample_high]).
    + exists sample_high. split; [simpl; tauto|reflexivity].
    + exists sample_medium. split; [simpl; tauto|discriminate].
  - vm_compute. reflexivity.
Defined.

(** ** An unknown priority *)

Lemma form_of_lookups (task_content priority_text : string) :
  form_of task_content priority_text None !! "task" = Some task_content /\
  form_of task_content priority_text None !! "priority" = Some priority_text /\
  form_of task_content priority_text None !! "due_date" = None.
Proof.
  unfold form_of. split; [|split].
  - apply lookup_insert_eq.
  - rewrite lookup_insert_ne by discriminate. apply lookup_singleton_eq.
  - rewrite lookup_insert_ne by discriminate. apply lookup_singleton_ne. discriminate.
Qed.

Lemma key_incomplete_ranks (t : Task) :
  exists r, key_incomplete t = Ok (Tuple [PyInt r; PyDate (default date_max (due_date t))]) /\
    (priority t = "High" -> r = 1) /\ (priority t = "Medium" -> r = 2) /\
    (priority t = "Low" -> r = 3) /\ (~ valid_priority (priority t) -> r = 4).
Proof.
  eexists. split; [reflexivity|]. repeat split.
  - intros ->. reflexivity.
  - intros ->. reflexivity.
  - intros ->. reflexivity.
  - intros H. now rewrite (priority_order_other _ H).
Qed.

(** C10. For a priority text [p] other than High, Medium and Low: the
    priority table of the listing has no rank for [p], so the priority sort
    of any list holding a task with that priority raises KeyError, and a
    table on which the listing page fails with it can be reached (by adding
    one such task); whereas the sort of the incomplete-tasks page returns on
    every list, gives such a task the rank 4, and places it after every task
    whose priority is High, Medium or Low. *)
Theorem priority_sort_partial (strptime : string -> option date)
        (ilike : string -> string -> bool) (p : string) :
  ~ valid_priority p ->
  priority_order !! p = None /\
  (forall l t, In t l -> priority t = p -> listing "priority" l = Raise KeyError) /\
  (exists table,
      reachable strptime ilike table /\
      (exists t, In t table /\ priority t = p) /\
      forall today utcnow,
        fst (serve strptime ilike today utcnow (ReqIndex ∅) table) = HttpError 500) /\
  (forall t, priority t = p ->
     key_incomplete t = Ok (Tuple [PyInt 4; PyDate (default date_max (due_date t))])) /\
  (forall l, exists l',
      incomplete_listing l = Ok l' /\ Permutation l l' /\
      forall (i j : nat) (a b : Task),
        l' !! i = Some a -> l' !! j = Some b ->
        valid_priority (priority a) -> priority b = p -> (i < j)%nat).
Proof.
  intros Hp. split; [|split; [|split; [|split]]].
  - apply priority_order_other. exact Hp.
  - intros l t Ht <-. eapply priority_listing_raises; eauto.
  - exists (snd (serve strptime ilike 1 (mkDatetime 1 0)
                   (ReqAdd (form_of "x" p None)) [])).
    split; [apply reachable_serve; constructor|].
    rewrite serve_add.
    destruct (form_of_lookups "x" p) as (-> & -> & ->).
    cbn [given str_truthy String.eqb Ascii.eqb Bool.eqb negb snd app].
    split.
    + eexists. split; [left; reflexivity|reflexivity].
    + intros today utcnow. rewrite serve_index, index_run.
      rewrite !lookup_empty. cbn [from_option fst begin rows].
      change (strip "") with "".
      unfold filtered_query. cbn [String.eqb Ascii.eqb Bool.eqb str_truthy negb].
      erewrite priority_listing_raises; [reflexivity|left; reflexivity|exact Hp].
  - intros t <-. unfold key_incomplete. now rewrite (priority_order_other _ Hp).
  - intros l. destruct (incomplete_listing_total l) as (l' & E & P & S).
    exists l'. split; [exact E|]. split; [exact P|].
    intros i j a b Hi Hj Va <-.
    destruct (key_incomplete_ranks a) as (ra & Ea & H1 & H2 & H3 & _).
    destruct (key_incomplete_ranks b) as (rb & Eb & _ & _ & _ & H4).
    apply (S i j a b _ _ Hi Hj Ea Eb).
    rewrite (H4 Hp). simpl.
    destruct Va as [V|[V|V]];
      [rewrite (H1 V)|rewrite (H2 V)|rewrite (H3 V)]; reflexivity.
Qed.

Lemma priority_sort_partial_sample :
  priority_order !! "Urgent" = None /\
  listing "priority" [sample_high; sample_urgent] = Raise KeyError /\
  key_incomplete sample_urgent = Ok (Tuple [PyInt 4; PyDate date_max]).
Proof.
  destruct (priority_sort_partial sample_strptime sample_ilike "Urgent")
    as (H1 & H2 & _ & H4 & _).
  - unfold valid_priority. intros [H|[H|H]]; discriminate H.
  - split; [exact H1|]. split.
    + apply (H2 [sample_high; sample_urgent] sample_urgent); [simpl; tauto|reflexivity].
    + apply (H4 sample_urgent). reflexivity.
Defined.

(** * Further properties *)

(** ** Primary keys *)

Lemma next_id_gt (table : list Task) (r : Task) : In r table -> id r < next_id table.
Proof.
  unfold next_id. destruct table as [|t table]; intros H; [destruct H|].
  assert (Hm : forall l m, m <= fold_right (fun r m => Z.max (id r) m) m l).
  { induction l as [|x l IH]; intros m; simpl; [lia|]. specialize (IH m). lia. }
  assert (Hin : forall l m x, In x l -> id x <= fold_right (fun r m => Z.max (id r) m) m l).
  { induction l as [|y l IH]; intros m x Hx; [destruct Hx|]. simpl.
    destruct Hx as [->|Hx]; [lia|]. specialize (IH m x Hx). lia. }
  destruct H as [->|H].
  - specialize (Hm table (id r)). lia.
  - specialize (Hin table (id t) r H). lia.
Qed.

Lemma next_id_is (table : list Task) :
  next_id table = 1 \/ exists r, In r table /\ next_id table = id r + 1.
Proof.
  unfold next_id. destruct table as [|t table]; [now left|]. right.
  assert (H : forall l m,
    fold_right (fun r m => Z.max (id r) m) m l = m \/
    exists r, In r l /\ fold_right (fun r m => Z.max (id r) m) m l = id r).
  { induction l as [|x l IH]; intros m; simpl; [now left|].
    destruct (IH m) as [E|(r & Hr & E)]; rewrite E.
    - destruct (Z.max_spec (id x) m) as [[_ ->]|[_ ->]]; [now left|right; eauto].
    - destruct (Z.max_spec (id x) (id r)) as [[_ ->]|[_ ->]]; right; eauto. }
  destruct (H table (id t)) as [E|(r & Hr & E)]; rewrite E.
  - exists t. split; [now left|lia].
  - exists r. split; [now right|lia].
Qed.

Lemma get_None_iff (i : Z) (table : list Task) :
  get i table = None <-> forall r, In r table -> id r <> i.
Proof.
  unfold get. split.
  - intros H r Hr E. apply (find_none _ _ H) in Hr. apply Z.eqb_neq in Hr. contradiction.
  - intros H. induction table as [|x table IH]; [reflexivity|]. simpl.
    destruct (id x =? i) eqn:E.
    + apply Z.eqb_eq in E. exfalso. apply (H x); [now left|exact E].
    + apply IH. intros r Hr. apply H. now right.
Qed.

Lemma get_next_id (table : list Task) : get (next_id table) table = None.
Proof.
  apply get_None_iff. intros r Hr. pose proof (next_id_gt table r Hr). lia.
Qed.

Lemma get_app (i : Z) (table more : list Task) :
  get i (table ++ more) = match get i table with
                          | Some t => Some t
                          | None => get i more
                          end.
Proof.
  unfold get. induction table as [|x table IH]; [reflexivity|]. simpl.
  destruct (id x =? i); [reflexivity|exact IH].
Qed.

Lemma get_remove_row_same (i : Z) (table : list Task) : get i (remove_row i table) = None.
Proof.
  apply get_None_iff. unfold remove_row. intros r Hr. apply filter_In in Hr.
  destruct Hr as [_ Hr]. apply negb_true_iff, Z.eqb_neq in Hr. exact Hr.
Qed.

Lemma get_remove_row_other (i j : Z) (table : list Task) :
  j <> i -> get j (remove_row i table) = get j table.
Proof.
  intros Hne. unfold get, remove_row. induction table as [|x table IH]; [reflexivity|].
  simpl. destruct (id x =? i) eqn:E; simpl.
  - apply Z.eqb_eq in E. assert (F : (id x =? j) = false) by (apply Z.eqb_neq; lia).
    rewrite F. exact IH.
  - destruct (id x =? j); [reflexivity|exact IH].
Qed.

Lemma In_remove_row (i : Z) (table : list Task) (r : Task) :
  In r (remove_row i table) <-> In r table /\ id r <> i.
Proof.
  unfold remove_row. rewrite filter_In, negb_true_iff, Z.eqb_neq. reflexivity.
Qed.

Lemma map_id_replace_row (i : Z) (t' : Task) (table : list Task) :
  id t' = i -> map id (replace_row i t' table) = map id table.
Proof.
  intros Hid. unfold replace_row. rewrite map_map. apply map_ext_in.
  intros r _. destruct (id r =? i) eqn:E; [|reflexivity].
  apply Z.eqb_eq in E. congruence.
Qed.

Lemma ids_increasing_remove_row (i : Z) (table : list Task) :
  ids_increasing table -> ids_increasing (remove_row i table).
Proof.
  unfold ids_increasing, remove_row. induction table as [|x table IH]; simpl; intros H.
  - constructor.
  - inversion H as [|? ? Hs Hx]; subst. destruct (negb (id x =? i)); simpl.
    + constructor; [apply IH; exact Hs|].
      rewrite List.Forall_forall in *. intros z Hz. apply Hx.
      apply in_map_iff in Hz. destruct Hz as (r & <- & Hr).
      apply filter_In in Hr. apply in_map. tauto.
    + apply IH. exact Hs.
Qed.

Lemma ids_increasing_app (table : list Task) (t : Task) :
  ids_increasing table -> (forall r, In r table -> id r < id t) ->
  ids_increasing (table ++ [t]).
Proof.
  unfold ids_increasing. induction table as [|x table IH]; simpl; intros H Hlt.
  - constructor; constructor.
  - inversion H as [|? ? Hs Hx]; subst. constructor.
    + apply IH; [exact Hs|]. intros r Hr. apply Hlt. now right.
    + rewrite map_app. apply Forall_app_2; [exact Hx|].
      constructor; [|constructor]. apply Hlt. now left.
Qed.

Lemma ids_increasing_NoDup (table : list Task) : ids_increasing table -> NoDup (map id table).
Proof.
  unfold ids_increasing. induction 1 as [|x l Hs IH Hx]; constructor; [|exact IH].
  intros Hin. rewrite List.Forall_forall in Hx. apply list_elem_of_In in Hin.
  specialize (Hx _ Hin). lia.
Qed.

Lemma serve_ids_increasing (strptime : string -> option date)
      (ilike : string -> string -> bool) (today : date) (utcnow : datetime)
      (req : Request) (table : list Task) :
  ids_increasing table ->
  ids_increasing (snd (serve strptime ilike today utcnow req table)).
Proof.
  intros H. destruct req as [args|form|i|i|method task_id form| |].
  - rewrite serve_keeps_rows; [exact H|]. apply keeps_rows_index.
  - rewrite serve_add.
    assert (Hc : forall tc pr due,
      ids_increasing
        (if str_truthy tc then table ++ [created_task table tc pr due utcnow] else table)).
    { intros tc pr due. destruct (str_truthy tc); [|exact H].
      apply ids_increasing_app; [exact H|]. intros r Hr. simpl. now apply next_id_gt. }
    destruct (form !! "task") as [tc|]; [|exact H].
    destruct (form !! "priority") as [pr|]; [|exact H].
    destruct (given (form !! "due_date")) as [s|]; [|apply Hc].
    destruct (strptime s) as [d|]; [|exact H].
    destruct (d <? today); [exact H|apply Hc].
  - rewrite serve_complete. destruct (get i table) as [t|] eqn:G; [|exact H].
    unfold ids_increasing. simpl snd. rewrite map_id_replace_row; [exact H|].
    rewrite toggled_fields. simpl. eapply get_id. exact G.
  - rewrite serve_delete. destruct (get i table) as [t|]; [|exact H].
    apply ids_increasing_remove_row. exact H.
  - rewrite serve_edit. destruct (get task_id table) as [t|] eqn:G; [|exact H].
    assert (He : forall tc pr due,
      ids_increasing (replace_row task_id (edited tc pr due t) table)).
    { intros tc pr due. unfold ids_increasing. rewrite map_id_replace_row; [exact H|].
      simpl. eapply get_id. exact G. }
    destruct method; [exact H|].
    destruct (form !! "task") as [tc|]; [|exact H].
    destruct (form !! "priority") as [pr|]; [|exact H].
    destruct (given (form !! "due_date")) as [s|]; [|apply He].
    destruct (strptime s) as [d|]; [|exact H].
    destruct (d <? today); [exact H|apply He].
  - rewrite serve_keeps_rows; [exact H|]. apply keeps_rows_dashboard.
  - rewrite serve_keeps_rows; [exact H|]. apply keeps_rows_incomplete_tasks.
Qed.

(** X1. The primary keys of every table the application can reach grow
    strictly along the table, so no two rows share one; every request keeps
    them so. *)
Theorem primary_keys_increasing (strptime : string -> option date)
        (ilike : string -> string -> bool) :
  (forall table, reachable strptime ilike table ->
     ids_increasing table /\ NoDup (map id table)) /\
  (forall today utcnow req table,
     ids_increasing table ->
     ids_increasing (snd (serve strptime ilike today utcnow req table))).
Proof.
  split.
  - intros table Hr. assert (H : ids_increasing table).
    { induction Hr as [|today utcnow req table _ IH].
      - constructor.
      - apply serve_ids_increasing. exact IH. }
    split; [exact H|apply ids_increasing_NoDup; exact H].
  - intros today utcnow req table. apply serve_ids_increasing.
Qed.

(** ** Records that are not there *)

Section MissingRecord.
Variable strptime : string -> option date.
Variable ilike : string -> string -> bool.

Lemma flashed_missing (today : date) (utcnow : datetime) (i : Z) (table : list Task) :
  get i table = None ->
  flashed strptime ilike today utcnow (ReqComplete i) table = [] /\
  flashed strptime ilike today utcnow (ReqDelete i) table = [] /\
  forall method form,
    flashed strptime ilike today utcnow (ReqEdit method i form) table = [].
Proof.
  intros G.
  unfold flashed, dispatch, complete, delete, edit, handler_bind, get_or_404, begin.
  cbn [identity_map rows]. rewrite lookup_empty, G. repeat split.
Qed.

(** X2. Completing, deleting or editing (GET or POST) a task id that is not
    in the table changes no row and flashes nothing; the answer is 404 for
    an id up to the largest 64-bit integer, and 500 for a larger one, which
    the query cannot bind. *)
Theorem missing_record_404 (today : date) (utcnow : datetime) (i : Z)
        (table : list Task) :
  get i table = None ->
  serve strptime ilike today utcnow (ReqComplete i) table
    = (HttpError (if i <=? 9223372036854775807 then 404 else 500), table) /\
  serve strptime ilike today utcnow (ReqDelete i) table
    = (HttpError (if i <=? 9223372036854775807 then 404 else 500), table) /\
  (forall method form,
     serve strptime ilike today utcnow (ReqEdit method i form) table
       = (HttpError (if i <=? 9223372036854775807 then 404 else 500), table)) /\
  flashed strptime ilike today utcnow (ReqComplete i) table = [] /\
  flashed strptime ilike today utcnow (ReqDelete i) table = [] /\
  (forall method form,
     flashed strptime ilike today utcnow (ReqEdit method i form) table = []).
Proof.
  intros G. destruct (flashed_missing today utcnow i table G) as (F1 & F2 & F3).
  assert (E : response_of (Raise (absent i))
              = HttpError (if i <=? 9223372036854775807 then 404 else 500)).
  { unfold absent, bindable. destruct (i <=? 9223372036854775807); reflexivity. }
  rewrite serve_complete, serve_delete, G, E.
  repeat split; try assumption.
  intros method form. now rewrite serve_edit, G, E.
Qed.
End MissingRecord.

Lemma missing_record_404_sample :
  serve sample_strptime sample_ilike sample_today sample_utcnow (ReqComplete 9) sample_table
    = (HttpError 404, sample_table) /\
  serve sample_strptime sample_ilike sample_today sample_utcnow
        (ReqDelete 9223372036854775808) sample_table
    = (HttpError 500, sample_table).
Proof.
  split.
  - apply (missing_record_404 sample_strptime sample_ilike sample_today sample_utcnow
             9 sample_table). reflexivity.
  - apply (missing_record_404 sample_strptime sample_ilike sample_today sample_utcnow
             9223372036854775808 sample_table). reflexivity.
Defined.

(** ** Deleting and adding *)

Lemma remove_row_absent (i : Z) (table : list Task) :
  (forall r, In r table -> id r <> i) -> remove_row i table = table.
Proof.
  unfold remove_row. induction table as [|x table IH]; intros H; [reflexivity|].
  simpl. assert (E : (id x =? i) = false) by (apply Z.eqb_neq, H; now left).
  rewrite E. simpl. f_equal. apply IH. intros r Hr. apply H. now right.
Qed.

Lemma length_remove_row (i : Z) (t : Task) (table : list Task) :
  get i table = Some t -> NoDup (map id table) ->
  (length (remove_row i table) + 1 = length table)%nat.
Proof.
  unfold get. induction table as [|x table IH]; intros G Hnd; [discriminate|].
  simpl in *. apply NoDup_cons in Hnd. destruct Hnd as [Hx Hnd].
  destruct (id x =? i) eqn:E; simpl.
  - apply Z.eqb_eq in E. rewrite remove_row_absent; [lia|].
    intros r Hr Er. apply Hx. rewrite E, <- Er.
    apply list_elem_of_In, in_map, Hr.
  - unfold remove_row in *. simpl. specialize (IH G Hnd). lia.
Qed.

Section DeleteAdd.
Variable strptime : string -> option date.
Variable ilike : string -> string -> bool.

Lemma flashed_delete (today : date) (utcnow : datetime) (i : Z) (table : list Task) :
  flashed strptime ilike today utcnow (ReqDelete i) table = [].
Proof.
  unfold flashed, dispatch, delete, handler_bind, get_or_404, begin.
  cbn [identity_map rows]. rewrite lookup_empty.
  destruct (get i table); reflexivity.
Qed.

Lemma flashed_complete (today : date) (utcnow : datetime) (i : Z) (table : list Task) :
  flashed strptime ilike today utcnow (ReqComplete i) table = [].
Proof.
  unfold flashed, dispatch, complete, handler_bind, get_or_404, begin.
  cbn [identity_map rows]. rewrite lookup_empty.
  destruct (get i table) as [t|]; [|reflexivity].
  unfold setattr, commit, handler_ret. destruct t as [i' tx c pr due cr ca].
  destruct c; reflexivity.
Qed.

(** X3. Deleting an existing task redirects to the listing and removes the
    rows of that id and no other: the id can no longer be read, every other
    id reads as before, the rows left are exactly the rows of other ids,
    unaltered, and where ids are distinct the table is one row shorter. *)
Theorem delete_removes (today : date) (utcnow : datetime) (i : Z) (t : Task)
        (table : list Task) :
  get i table = Some t ->
  fst (serve strptime ilike today utcnow (ReqDelete i) table) = Redirect ep_index /\
  get i (snd (serve strptime ilike today utcnow (ReqDelete i) table)) = None /\
  (forall j, j <> i ->
     get j (snd (serve strptime ilike today utcnow (ReqDelete i) table)) = get j table) /\
  (forall r, In r (snd (serve strptime ilike today utcnow (ReqDelete i) table)) <->
             In r table /\ id r <> i) /\
  (NoDup (map id table) ->
   (length (snd (serve strptime ilike today utcnow (ReqDelete i) table)) + 1
    = length table)%nat).
Proof.
  intros G. rewrite serve_delete, G. simpl fst. simpl snd.
  split; [reflexivity|]. split; [apply get_remove_row_same|].
  split; [intros j Hj; now apply get_remove_row_other|].
  split; [intros r; apply In_remove_row|].
  intros Hnd. eapply length_remove_row; eauto.
Qed.


(** X5. On a table whose keys are positive and below the largest 64-bit
    integer, whenever a POST to add changed the table it appended one row,
    under a key a request can carry, and deleting that id redirects to the
    listing and gives back the table exactly as it was before the add. *)
Theorem add_then_delete (today today' : date) (utcnow utcnow' : datetime)
        (form : gmap string string) (table : list Task) :
  Forall (fun r => 1 <= id r < 9223372036854775807) table ->
  snd (serve strptime ilike today utcnow (ReqAdd form) table) <> table ->
  exists new,
    snd (serve strptime ilike today utcnow (ReqAdd form) table) = (table ++ [new])%list /\
    1 <= id new <= 9223372036854775807 /\
    serve strptime ilike today' utcnow' (ReqDelete (id new)) (table ++ [new])
      = (Redirect ep_index, table).
Proof.
  intros Hb Hch.
  assert (Hdel : forall new, id new = next_id table ->
    1 <= id new <= 9223372036854775807 /\
    serve strptime ilike today' utcnow' (ReqDelete (id new)) (table ++ [new])
      = (Redirect ep_index, table)).
  { intros new Hid. split.
    - rewrite Hid. destruct (next_id_is table) as [->|(r & Hr & ->)]; [lia|].
      rewrite List.Forall_forall in Hb. specialize (Hb r Hr). lia.
    - rewrite serve_delete, Hid, get_app, get_next_id. unfold get. simpl.
      rewrite Hid, Z.eqb_refl. f_equal.
      unfold remove_row. rewrite List.filter_app. simpl.
      rewrite Hid, Z.eqb_refl. simpl. rewrite app_nil_r.
      apply remove_row_absent. intros r Hr. pose proof (next_id_gt table r Hr). lia. }
  rewrite serve_add in *.
  destruct (form !! "task") as [tc|]; [|contradiction].
  destruct (form !! "priority") as [pr|]; [|contradiction].
  destruct (given (form !! "due_date")) as [s|].
  - destruct (strptime s) as [d|]; [|contradiction].
    destruct (d <? today); [contradiction|].
    destruct (str_truthy tc); [|contradiction]. simpl snd.
    eexists. split; [reflexivity|]. now apply Hdel.
  - destruct (str_truthy tc); [|contradiction]. simpl snd.
    eexists. split; [reflexivity|]. now apply Hdel.
Qed.
End DeleteAdd.

Lemma delete_removes_sample :
  fst (serve sample_strptime sample_ilike sample_today sample_utcnow
         (ReqDelete 3) sample_table) = Redirect ep_index /\
  get 3 (snd (serve sample_strptime sample_ilike sample_today sample_utcnow
                (ReqDelete 3) sample_table)) = None.
Proof.
  destruct (delete_removes sample_strptime sample_ilike sample_today sample_utcnow
              3 sample_medium sample_table) as (H1 & H2 & _).
  - reflexivity.
  - split; [exact H1|exact H2].
Defined.


Lemma add_then_delete_sample :
  exists new,
    snd (serve sample_strptime sample_ilike sample_today sample_utcnow
           (ReqAdd (form_of "buy stamps" "Low" None)) sample_table)
      = (sample_table ++ [new])%list /\
    serve sample_strptime sample_ilike sample_today sample_utcnow
          (ReqDelete (id new)) (sample_table ++ [new])
      = (Redirect ep_index, sample_table).
Proof.
  destruct (add_then_delete sample_strptime sample_ilike sample_today sample_today
              sample_utcnow sample_utcnow (form_of "buy stamps" "Low" None) sample_table)
    as (new & H1 & _ & H3).
  - repeat constructor; simpl; lia.
  - vm_compute. discriminate.
  - exists new. split; [exact H1|exact H3].
Defined.

(** ** Forms that cannot be used *)

Section FormErrors.
Variable strptime : string -> option date.
Variable ilike : string -> string -> bool.

(** X6. A POST to add, or to edit an existing task, whose form lacks the
    task or the priority field answers 400; no row changes and nothing is
    flashed. *)
Theorem missing_form_field_400 (today : date) (utcnow : datetime)
        (form : gmap string string) (table : list Task) :
  form !! "task" = None \/ form !! "priority" = None ->
  serve strptime ilike today utcnow (ReqAdd form) table = (HttpError 400, table) /\
  flashed strptime ilike today utcnow (ReqAdd form) table = [] /\
  (forall task_id t, get task_id table = Some t ->
     serve strptime ilike today utcnow (ReqEdit POST task_id form) table
       = (HttpError 400, table) /\
     flashed strptime ilike today utcnow (ReqEdit POST task_id form) table = []).
Proof.
  intros H. rewrite serve_add, flashed_add. split; [|split].
  - destruct H as [-> | ->]; [reflexivity|]. destruct (form !! "task"); reflexivity.
  - destruct H as [-> | ->]; [reflexivity|]. destruct (form !! "task"); reflexivity.
  - intros task_id t G. rewrite serve_edit, (flashed_edit_post _ _ _ _ _ _ _ _ G), G.
    destruct H as [-> | ->]; [split; reflexivity|].
    destruct (form !! "task"); split; reflexivity.
Qed.

(** X7. A POST to add, or to edit an existing task, whose form carries the
    task and priority fields and a non-empty due date that does not parse
    answers 500; no row changes and nothing is flashed. *)
Theorem unparsable_due_date_500 (today : date) (utcnow : datetime)
        (form : gmap string string) (table : list Task) (s : string) :
  is_Some (form !! "task") -> is_Some (form !! "priority") ->
  form !! "due_date" = Some s -> s <> "" -> strptime s = None ->
  serve strptime ilike today utcnow (ReqAdd form) table = (HttpError 500, table) /\
  flashed strptime ilike today utcnow (ReqAdd form) table = [] /\
  (forall task_id t, get task_id table = Some t ->
     serve strptime ilike today utcnow (ReqEdit POST task_id form) table
       = (HttpError 500, table) /\
     flashed strptime ilike today utcnow (ReqEdit POST task_id form) table = []).
Proof.
  intros [tc Ht] [pr Hp] Hs Hne Hd.
  rewrite serve_add, flashed_add, Ht, Hp, Hs, (given_nonempty _ Hne), Hd.
  split; [reflexivity|]. split; [reflexivity|].
  intros task_id t G.
  rewrite serve_edit, (flashed_edit_post _ _ _ _ _ _ _ _ G), G, Ht, Hp, Hs,
    (given_nonempty _ Hne), Hd.
  split; reflexivity.
Qed.
End FormErrors.

Lemma missing_form_field_400_sample :
  serve sample_strptime sample_ilike sample_today sample_utcnow
        (ReqAdd {[ "task" := "buy stamps" ]}) sample_table = (HttpError 400, sample_table).
Proof.
  apply (missing_form_field_400 sample_strptime sample_ilike sample_today sample_utcnow
           {[ "task" := "buy stamps" ]} sample_table).
  right. reflexivity.
Defined.

Lemma unparsable_due_date_500_sample :
  serve sample_strptime sample_ilike sample_today sample_utcnow
        (ReqAdd (form_of "buy stamps" "Low" (Some "next week"))) sample_table
    = (HttpError 500, sample_table).
Proof.
  apply (unparsable_due_date_500 sample_strptime sample_ilike sample_today sample_utcnow
           (form_of "buy stamps" "Low" (Some "next week")) sample_table "next week").
  - eexists. reflexivity.
  - eexists. reflexivity.
  - reflexivity.
  - discriminate.
  - reflexivity.
Defined.

(** ** Editing *)

Section Editing.
Variable strptime : string -> option date.
Variable ilike : string -> string -> bool.

(** X8. A POST to edit an existing task with the task and priority fields
    and a due date that is absent (or empty) or parses to today or later
    redirects to the listing with the success message, and leaves that task
    with the submitted text (empty or not) and priority and the parsed due
    date (none when absent); its id, completion flag, creation and
    completion times are as before, and so is every other row. *)
Theorem edit_updates (today : date) (utcnow : datetime) (task_id : Z) (t : Task)
        (form : gmap string string) (table : list Task)
        (task_content priority_text : string) (due : option date) :
  get task_id table = Some t ->
  form !! "task" = Some task_content -> form !! "priority" = Some priority_text ->
  match given (form !! "due_date") with
  | Some s => exists d, strptime s = Some d /\ today <= d /\ due = Some d
  | None => due = None
  end ->
  fst (serve strptime ilike today utcnow (ReqEdit POST task_id form) table)
    = Redirect ep_index /\
  flashed strptime ilike today utcnow (ReqEdit POST task_id form) table
    = [("Task updated successfully!", "success")] /\
  get task_id (snd (serve strptime ilike today utcnow (ReqEdit POST task_id form) table))
    = Some (mkTask (id t) task_content (completed t) priority_text due
                   (created_at t) (completed_at t)) /\
  (forall j, j <> task_id ->
     get j (snd (serve strptime ilike today utcnow (ReqEdit POST task_id form) table))
       = get j table) /\
  length (snd (serve strptime ilike today utcnow (ReqEdit POST task_id form) table))
    = length table.
Proof.
  intros G Ht Hp Hd.
  rewrite serve_edit, (flashed_edit_post _ _ _ _ _ _ _ _ G), G, Ht, Hp.
  assert (Hid : id (edited task_content priority_text due t) = task_id).
  { simpl. eapply get_id. exact G. }
  assert (Hrest :
    get task_id (replace_row task_id (edited task_content priority_text due t) table)
      = Some (mkTask (id t) task_content (completed t) priority_text due
                     (created_at t) (completed_at t)) /\
    (forall j, j <> task_id ->
       get j (replace_row task_id (edited task_content priority_text due t) table)
         = get j table) /\
    length (replace_row task_id (edited task_content priority_text due t) table)
      = length table).
  { split; [|split].
    - eapply get_replace_row_same; eauto.
    - intros j Hj. apply get_replace_row_other; assumption.
    - unfold replace_row. now rewrite length_map. }
  destruct (given (form !! "due_date")) as [s|].
  - destruct Hd as (d & Hs & Hle & ->). rewrite Hs.
    assert (E : (d <? today) = false) by (apply Z.ltb_ge; exact Hle). rewrite E.
    split; [reflexivity|]. split; [reflexivity|exact Hrest].
  - subst due. split; [reflexivity|]. split; [reflexivity|exact Hrest].
Qed.

Lemma flashed_edit_get (today : date) (utcnow : datetime) (task_id : Z)
      (form : gmap string string) (table : list Task) :
  flashed strptime ilike today utcnow (ReqEdit GET task_id form) table = [].
Proof.
  unfold flashed, dispatch, edit, handler_bind, get_or_404, begin.
  cbn [identity_map rows]. rewrite lookup_empty.
  destruct (get task_id table); reflexivity.
Qed.

(** X9. A GET of the edit form of an existing task renders that task as
    stored, whatever form data comes with the request; no row changes and
    nothing is flashed. *)
Theorem edit_get_renders (today : date) (utcnow : datetime) (task_id : Z) (t : Task)
        (form : gmap string string) (table : list Task) :
  get task_id table = Some t ->
  serve strptime ilike today utcnow (ReqEdit GET task_id form) table = (RenderEdit t, table) /\
  flashed strptime ilike today utcnow (ReqEdit GET task_id form) table = [].
Proof.
  intros G. rewrite serve_edit, G, flashed_edit_get. split; reflexivity.
Qed.
End Editing.

Lemma edit_updates_sample :
  fst (serve sample_strptime sample_ilike sample_today sample_utcnow
         (ReqEdit POST 3 (form_of "" "Urgent" None)) sample_table) = Redirect ep_index /\
  get 3 (snd (serve sample_strptime sample_ilike sample_today sample_utcnow
                (ReqEdit POST 3 (form_of "" "Urgent" None)) sample_table))
    = Some (mkTask 3 "" false "Urgent" None (Some (mkDatetime 739921 5)) None).
Proof.
  destruct (edit_updates sample_strptime sample_ilike sample_today sample_utcnow
              3 sample_medium (form_of "" "Urgent" None) sample_table "" "Urgent" None)
    as (H1 & _ & H3 & _).
  - reflexivity.
  - reflexivity.
  - reflexivity.
  - reflexivity.
  - split; [exact H1|exact H3].
Defined.

Lemma edit_get_renders_sample :
  serve sample_strptime sample_ilike sample_today sample_utcnow
        (ReqEdit GET 3 ∅) sample_table = (RenderEdit sample_medium, sample_table).
Proof.
  apply (edit_get_renders sample_strptime sample_ilike sample_today sample_utcnow
           3 sample_medium ∅ sample_table).
  reflexivity.
Defined.

(** ** Completing twice; what no request does to a row *)

Lemma In_replace_row (i : Z) (t' : Task) (table : list Task) (r' : Task) :
  In r' (replace_row i t' table) -> r' = t' \/ In r' table.
Proof.
  unfold replace_row. intros H. apply in_map_iff in H. destruct H as (r & <- & Hr).
  destruct (id r =? i); [now left|now right].
Qed.

Section Composition.
Variable strptime : string -> option date.
Variable ilike : string -> string -> bool.

(** X10. Toggling completion of an existing task twice leaves it with its
    completion flag, id, text, priority, due date and creation time as they
    were, and every other row as it was; a task that was completed now
    carries the time of the second toggle as its completion time, and a task
    that was incomplete, with no completion time, reads back unchanged. *)
Theorem complete_twice (today today' : date) (utcnow utcnow' : datetime) (i : Z)
        (t : Task) (table : list Task) :
  get i table = Some t ->
  get i (snd (serve strptime ilike today' utcnow' (ReqComplete i)
                (snd (serve strptime ilike today utcnow (ReqComplete i) table))))
    = Some (mkTask (id t) (task t) (completed t) (priority t) (due_date t) (created_at t)
                   (if completed t then Some utcnow' else None)) /\
  (forall j, j <> i ->
     get j (snd (serve strptime ilike today' utcnow' (ReqComplete i)
                   (snd (serve strptime ilike today utcnow (ReqComplete i) table))))
       = get j table) /\
  (completed t = false -> completed_at t = None ->
   get i (snd (serve strptime ilike today' utcnow' (ReqComplete i)
                 (snd (serve strptime ilike today utcnow (ReqComplete i) table))))
     = Some t).
Proof.
  intros G. pose proof (get_id _ _ _ G) as Hid.
  rewrite (serve_complete _ _ today utcnow), G. simpl snd.
  assert (Hid1 : id (toggled utcnow t) = i) by (rewrite toggled_fields; exact Hid).
  pose proof (get_replace_row_same i t (toggled utcnow t) table G Hid1) as G1.
  rewrite serve_complete, G1. simpl snd.
  assert (Hid2 : id (toggled utcnow' (toggled utcnow t)) = i)
    by (rewrite toggled_fields; exact Hid1).
  assert (E : toggled utcnow' (toggled utcnow t)
              = mkTask (id t) (task t) (completed t) (priority t) (due_date t)
                       (created_at t) (if completed t then Some utcnow' else None)).
  { rewrite !toggled_fields. simpl. destruct (completed t); reflexivity. }
  split; [|split].
  - rewrite <- E. eapply get_replace_row_same; eauto.
  - intros j Hj. rewrite get_replace_row_other by assumption.
    apply get_replace_row_other; assumption.
  - intros Hc Ha. rewrite (get_replace_row_same i _ _ _ G1 Hid2), E, Hc, <- Ha, <- Hc.
    destruct t; reflexivity.
Qed.

(** X11. Whatever the request, every row of the table it leaves either
    stands for a row of the table it found, with the same id and the same
    creation time, or is the one row a POST to add appended, created now
    under an id that no row of the table it found has. *)
Theorem rows_keep_identity (today : date) (utcnow : datetime) (req : Request)
        (table : list Task) (r' : Task) :
  In r' (snd (serve strptime ilike today utcnow req table)) ->
  continues table r' \/
  ((exists form, req = ReqAdd form) /\ created_at r' = Some utcnow /\
   forall r, In r table -> id r <> id r').
Proof.
  assert (Hsame : forall r, In r table -> continues table r).
  { intros r Hr. exists r. auto. }
  intros H. destruct req as [args|form|i|i|method task_id form| |].
  - rewrite serve_keeps_rows in H by apply keeps_rows_index. left. now apply Hsame.
  - rewrite serve_add in H.
    assert (Hc : forall tc pr due,
      In r' (if str_truthy tc then table ++ [created_task table tc pr due utcnow] else table) ->
      continues table r' \/
      ((exists form0, ReqAdd form = ReqAdd form0) /\ created_at r' = Some utcnow /\
       forall r, In r table -> id r <> id r')).
    { intros tc pr due Hin. destruct (str_truthy tc); [|left; now apply Hsame].
      apply in_app_or in Hin. destruct Hin as [Hin|[<-|[]]]; [left; now apply Hsame|].
      right. split; [eauto|]. split; [reflexivity|]. intros r Hr. simpl.
      pose proof (next_id_gt table r Hr). lia. }
    destruct (form !! "task") as [tc|]; [|left; now apply Hsame].
    destruct (form !! "priority") as [pr|]; [|left; now apply Hsame].
    destruct (given (form !! "due_date")) as [s|]; [|eapply Hc; exact H].
    destruct (strptime s) as [d|]; [|left; now apply Hsame].
    destruct (d <? today); [left; now apply Hsame|eapply Hc; exact H].
  - left. rewrite serve_complete in H. destruct (get i table) as [t|] eqn:G; [|now apply Hsame].
    apply In_replace_row in H. destruct H as [->|H]; [|now apply Hsame].
    exists t. rewrite toggled_fields. simpl. split; [eapply get_In; exact G|auto].
  - left. rewrite serve_delete in H. destruct (get i table) as [t|]; [|now apply Hsame].
    apply In_remove_row in H. apply Hsame. tauto.
  - left. rewrite serve_edit in H. destruct (get task_id table) as [t|] eqn:G; [|now apply Hsame].
    assert (He : forall tc pr due,
      In r' (replace_row task_id (edited tc pr due t) table) -> continues table r').
    { intros tc pr due Hin. apply In_replace_row in Hin.
      destruct Hin as [->|Hin]; [|now apply Hsame].
      exists t. simpl. split; [eapply get_In; exact G|auto]. }
    destruct method; [now apply Hsame|].
    destruct (form !! "task") as [tc|]; [|now apply Hsame].
    destruct (form !! "priority") as [pr|]; [|now apply Hsame].
    destruct (given (form !! "due_date")) as [s|]; [|eapply He; exact H].
    destruct (strptime s) as [d|]; [|now apply Hsame].
    destruct (d <? today); [now apply Hsame|eapply He; exact H].
  - rewrite serve_keeps_rows in H by apply keeps_rows_dashboard. left. now apply Hsame.
  - rewrite serve_keeps_rows in H by apply keeps_rows_incomplete_tasks. left. now apply Hsame.
Qed.
End Composition.

Lemma complete_twice_sample :
  get 2 (snd (serve sample_strptime sample_ilike sample_today sample_utcnow (ReqComplete 2)
                (snd (serve sample_strptime sample_ilike sample_today sample_utcnow
                        (ReqComplete 2) sample_table))))
    = Some sample_high.
Proof.
  destruct (complete_twice sample_strptime sample_ilike sample_today sample_today
              sample_utcnow sample_utcnow 2 sample_high sample_table) as (_ & _ & H).
  - reflexivity.
  - apply H; reflexivity.
Defined.

Lemma rows_keep_identity_sample :
  continues sample_table (toggled sample_utcnow sample_high) \/
  ((exists form, ReqComplete 2 = ReqAdd form) /\
   created_at (toggled sample_utcnow sample_high) = Some sample_utcnow /\
   forall r, In r sample_table -> id r <> id (toggled sample_utcnow sample_high)).
Proof.
  apply (rows_keep_identity sample_strptime sample_ilike sample_today sample_utcnow
           (ReqComplete 2) sample_table (toggled sample_utcnow sample_high)).
  vm_compute. right. left. reflexivity.
Defined.

(** ** What the listing page lists *)

Lemma insort_Permutation {A : Type} (x : A * pykey) (l l' : list (A * pykey)) :
  insort x l = Ok l' -> Permutation (x :: l) l'.
Proof.
  revert l'. induction l as [|y l IH]; intros l' H; simpl in H.
  - injection H as <-. reflexivity.
  - destruct (key_lt (snd x) (snd y)) as [[|]|e]; simpl in H; try discriminate.
    + injection H as <-. reflexivity.
    + destruct (insort x l) as [r|e]; simpl in H; [|discriminate].
      injection H as <-. rewrite perm_swap. constructor. now apply IH.
Qed.

Lemma insort_all_Permutation {A : Type} (l acc r : list (A * pykey)) :
  insort_all acc l = Ok r -> Permutation (acc ++ l) r.
Proof.
  revert acc. induction l as [|x l IH]; intros acc H; simpl in H.
  - injection H as <-. now rewrite app_nil_r.
  - destruct (insort x acc) as [acc'|e] eqn:E; simpl in H; [|discriminate].
    apply IH in H. rewrite <- H. apply insort_Permutation in E. rewrite <- E.
    rewrite Permutation_app_comm. simpl. constructor. apply Permutation_app_comm.
Qed.

Lemma decorate_fst {A : Type} (key : A -> result pykey) (l : list A)
      (dl : list (A * pykey)) :
  decorate key l = Ok dl -> map fst dl = l.
Proof.
  revert dl. induction l as [|x l IH]; intros dl H; simpl in H.
  - injection H as <-. reflexivity.
  - destruct (key x) as [k|e]; simpl in H; [|discriminate].
    destruct (decorate key l) as [r|e]; simpl in H; [|discriminate].
    injection H as <-. simpl. f_equal. now apply IH.
Qed.

(** Whenever [sorted] returns, it returns a permutation of its input. *)
Lemma sorted_Permutation {A : Type} (key : A -> result pykey) (l l' : list A) :
  sorted l key = Ok l' -> Permutation l l'.
Proof.
  unfold sorted. intros H.
  destruct (decorate key l) as [dl|e] eqn:D; simpl in H; [|discriminate].
  destruct (insort_all [] dl) as [r|e] eqn:I; simpl in H; [|discriminate].
  injection H as <-. apply decorate_fst in D. rewrite <- D.
  apply Permutation_map. apply insort_all_Permutation in I. exact I.
Qed.

Lemma listing_Permutation (sort : string) (query l : list Task) :
  listing sort query = Ok l -> Permutation query l.
Proof.
  unfold listing. intros H.
  destruct (String.eqb sort "priority"); [now apply sorted_Permutation in H|].
  destruct (String.eqb sort "due_date"); [now apply sorted_Permutation in H|].
  destruct (String.eqb sort "created"); [now apply sorted_Permutation in H|].
  injection H as <-. reflexivity.
Qed.

Lemma In_filtered_query (ilike : string -> string -> bool) (status search : string)
      (all : list Task) (t : Task) :
  In t (filtered_query ilike status search all) <->
  In t all /\
  (status = "completed" -> completed t = true) /\
  (status = "pending" -> completed t = false) /\
  (search <> "" -> ilike (task t) search = true).
Proof.
  unfold filtered_query, str_truthy.
  assert (Hq : In t (if String.eqb status "completed"
                     then List.filter (fun t => completed t) all
                     else if String.eqb status "pending"
                          then List.filter (fun t => negb (completed t)) all
                          else all) <->
               In t all /\ (status = "completed" -> completed t = true) /\
               (status = "pending" -> completed t = false)).
  { destruct (String.eqb_spec status "completed") as [->|Hc].
    - rewrite filter_In. split; [intros [H1 H2]; repeat split; auto; discriminate|tauto].
    - destruct (String.eqb_spec status "pending") as [->|Hp].
      + rewrite filter_In, negb_true_iff. tauto.
      + tauto. }
  destruct (String.eqb_spec search "") as [->|Hs]; simpl.
  - rewrite Hq. tauto.
  - rewrite filter_In, Hq. tauto.
Qed.

(** X12. When the listing page renders, the tasks it lists are the rows of
    the table that pass the status filter (completed, pending, or any other
    value for all) and, for a search text that is not empty once stripped,
    the pattern match on the task text: each such row once, none else; with
    a sort other than priority, due_date and created they come in the order
    of the table.  No row changes. *)
Theorem index_lists_filtered (strptime : string -> option date)
        (ilike : string -> string -> bool) (today : date) (utcnow : datetime)
        (args : gmap string string) (table : list Task) (page : IndexPage) :
  fst (serve strptime ilike today utcnow (ReqIndex args) table) = RenderIndex page ->
  Permutation (filtered_query ilike (status_of args) (search_of args) table)
              (ix_tasks page) /\
  (forall t, In t (ix_tasks page) <->
     In t table /\
     (status_of args = "completed" -> completed t = true) /\
     (status_of args = "pending" -> completed t = false) /\
     (search_of args <> "" -> ilike (task t) (search_of args) = true)) /\
  (sort_of args <> "priority" -> sort_of args <> "due_date" -> sort_of args <> "created" ->
   ix_tasks page = filtered_query ilike (status_of args) (search_of args) table) /\
  snd (serve strptime ilike today utcnow (ReqIndex args) table) = table.
Proof.
  rewrite serve_index, index_run. cbn [begin rows fst snd].
  fold (status_of args) (sort_of args) (search_of args).
  destruct (listing (sort_of args) _) as [tasks|e] eqn:L; simpl;
    [|destruct e; discriminate].
  destruct (date_add today 1) as [soon|e]; simpl; [|destruct e; discriminate].
  intros [= <-]. simpl.
  pose proof (listing_Permutation _ _ _ L) as P.
  split; [exact P|]. split; [|split; [|reflexivity]].
  - intros t. rewrite <- In_filtered_query. split; intros H.
    + apply (Permutation_in _ (Permutation_sym P)). exact H.
    + apply (Permutation_in _ P). exact H.
  - intros H1 H2 H3. unfold listing in L.
    destruct (String.eqb_spec (sort_of args) "priority"); [contradiction|].
    destruct (String.eqb_spec (sort_of args) "due_date"); [contradiction|].
    destruct (String.eqb_spec (sort_of args) "created"); [contradiction|].
    now injection L as <-.
Qed.

Lemma index_lists_filtered_sample :
  Permutation
    (filtered_query sample_ilike (status_of {[ "status" := "pending" ]})
       (search_of {[ "status" := "pending" ]}) sample_table)
    [sample_high; sample_medium; sample_late; sample_low; sample_far].
Proof.
  apply (index_lists_filtered sample_strptime sample_ilike sample_today sample_utcnow
           {[ "status" := "pending" ]} sample_table
           (mkIndexPage [sample_high; sample_medium; sample_late; sample_low; sample_far]
                        [sample_late] [sample_medium] [sample_low])).
  vm_compute. reflexivity.
Defined.

Lemma lstrip_white_space (c rest : string) :
  In c white_space -> lstrip (c ++ rest) = lstrip rest.
Proof.
  intros H. simpl in H.
  repeat (destruct H as [<-|H]; [reflexivity|]). destruct H.
Qed.

Lemma lstrip_all_space (s : string) : all_space s -> lstrip s = "".
Proof.
  intros (chars & H & ->). induction H as [|c chars Hc _ IH]; [reflexivity|].
  simpl. rewrite lstrip_white_space by exact Hc. exact IH.
Qed.

(** X13. A search text made of white space characters only, ASCII or not,
    is no search: the listing page answers as it does when the search
    argument is left out. *)
Theorem blank_search_ignored (strptime : string -> option date)
        (ilike : string -> string -> bool) (today : date) (utcnow : datetime)
        (args : gmap string string) (table : list Task) (s : string) :
  all_space s ->
  serve strptime ilike today utcnow (ReqIndex (<["search" := s]> args)) table
  = serve strptime ilike today utcnow (ReqIndex (base.delete "search" args)) table.
Proof.
  intros H. rewrite !serve_index, !index_run.
  rewrite lookup_insert_eq, lookup_delete_eq.
  rewrite !lookup_insert_ne, !lookup_delete_ne by discriminate.
  cbn [from_option]. unfold Datatypes.id.
  unfold strip at 1. rewrite (lstrip_all_space s H). reflexivity.
Qed.

(** A space, a no-break space (U+00A0) and an em space (U+2003). *)
Lemma blank_search_ignored_sample :
  serve sample_strptime sample_ilike sample_today sample_utcnow
        (ReqIndex (<["search" := bytes [32; 194; 160; 226; 128; 131]%nat]> ∅)) sample_table
  = serve sample_strptime sample_ilike sample_today sample_utcnow
          (ReqIndex (base.delete "search" ∅)) sample_table.
Proof.
  apply (blank_search_ignored sample_strptime sample_ilike sample_today sample_utcnow
           ∅ sample_table (bytes [32; 194; 160; 226; 128; 131]%nat)).
  exists [bytes [32]%nat; bytes [194; 160]%nat; bytes [226; 128; 131]%nat].
  split; [|reflexivity].
  repeat constructor; simpl; tauto.
Defined.

(** ** The creation and due-date sorts *)

Section LexKeysBy.
Variable K : pykey -> Prop.
Hypothesis K_lex : forall a b, K a -> K b ->
  key_lt a b = Ok (lex_lt (key_pair' a) (key_pair' b)).

Lemma lex_total_by (a b : pykey) : K a -> K b -> exists r, key_lt a b = Ok r.
Proof. intros Ha Hb. eexists. apply K_lex; assumption. Qed.

Lemma lex_asym_by (a b : pykey) :
  K a -> K b -> key_lt a b = Ok true -> key_lt b a = Ok false.
Proof.
  intros Ha Hb. rewrite !K_lex by assumption. unfold lex_lt.
  intros [= H]. f_equal.
  destruct (key_pair' a) as [a1 a2], (key_pair' b) as [b1 b2]; simpl in *. lia.
Qed.

Lemma lex_trans_by (a b c : pykey) :
  K a -> K b -> K c ->
  key_lt b a = Ok false -> key_lt c b = Ok false -> key_lt c a = Ok false.
Proof.
  intros Ha Hb Hc. rewrite !K_lex by assumption. unfold lex_lt.
  intros [= H1] [= H2]. f_equal.
  destruct (key_pair' a) as [a1 a2], (key_pair' b) as [b1 b2], (key_pair' c) as [c1 c2];
    simpl in *. lia.
Qed.
End LexKeysBy.

Lemma int_key_lex (a b : pykey) :
  int_key a -> int_key b -> key_lt a b = Ok (lex_lt (key_pair' a) (key_pair' b)).
Proof.
  intros (x & ->) (y & ->). unfold lex_lt. simpl. f_equal. lia.
Qed.

Lemma date_bool_key_lex (a b : pykey) :
  date_bool_key a -> date_bool_key b ->
  key_lt a b = Ok (lex_lt (key_pair' a) (key_pair' b)).
Proof.
  intros (d1 & c1 & ->) (d2 & c2 & ->). unfold lex_lt. simpl.
  destruct (d1 =? d2) eqn:E; destruct c1, c2; simpl; f_equal; lia.
Qed.

Lemma sentinel_bool_key_lex (a b : pykey) :
  sentinel_bool_key a -> sentinel_bool_key b ->
  key_lt a b = Ok (lex_lt (key_pair' a) (key_pair' b)).
Proof.
  intros (c1 & ->) (c2 & ->). unfold lex_lt. simpl.
  destruct c1, c2; reflexivity.
Qed.

(** X14. Sorting the listing by creation returns on every list: a
    permutation of the tasks in which a task with a smaller id stands before
    every task with a larger one. *)
Theorem created_listing_by_id (l : list Task) :
  exists l', listing "created" l = Ok l' /\ Permutation l l' /\
    forall (i j : nat) (a b : Task),
      l' !! i = Some a -> l' !! j = Some b -> id a < id b -> (i < j)%nat.
Proof.
  destruct (sorted_order int_key
              (lex_total_by _ int_key_lex) (lex_asym_by _ int_key_lex)
              (lex_trans_by _ int_key_lex) key_created l)
    as (l' & E & P & S).
  { intros t _. eexists. split; [reflexivity|]. eexists. reflexivity. }
  exists l'. split; [exact E|]. split; [exact P|].
  intros i j a b Hi Hj Hlt.
  apply (S i j a b _ _ Hi Hj eq_refl eq_refl).
  simpl. f_equal. lia.
Qed.

Lemma due_precedes_key_lt (a b : Task) :
  due_precedes a b -> key_lt (due_date_key a) (due_date_key b) = Ok true.
Proof.
  unfold due_precedes, due_date_key.
  destruct (due_date a) as [da|], (due_date b) as [db|]; try contradiction.
  - intros [H|(-> & -> & ->)]; simpl.
    + assert (E : (da =? db) = false) by lia. rewrite E. f_equal. lia.
    + rewrite Z.eqb_refl. reflexivity.
  - intros (-> & ->). reflexivity.
Qed.

(** X15. On a list whose tasks all have a due date, or all have none, the
    due-date sort of the listing returns: a permutation of the tasks in
    which a task stands before every task with a later due date and, among
    tasks with the same due date (or all without one), every incomplete task
    stands before every completed one. *)
Theorem due_date_listing_uniform (l : list Task) :
  (forall a b, In a l -> In b l -> has_due_date a = has_due_date b) ->
  exists l', listing "due_date" l = Ok l' /\ Permutation l l' /\
    forall (i j : nat) (a b : Task),
      l' !! i = Some a -> l' !! j = Some b -> due_precedes a b -> (i < j)%nat.
Proof.
  intros Hu.
  assert (Hkey : forall (K : pykey -> Prop),
    (forall a b, K a -> K b -> key_lt a b = Ok (lex_lt (key_pair' a) (key_pair' b))) ->
    (forall t, In t l -> K (due_date_key t)) ->
    exists l', listing "due_date" l = Ok l' /\ Permutation l l' /\
      forall (i j : nat) (a b : Task),
        l' !! i = Some a -> l' !! j = Some b -> due_precedes a b -> (i < j)%nat).
  { intros K HK Hk.
    destruct (sorted_order K (lex_total_by _ HK) (lex_asym_by _ HK) (lex_trans_by _ HK)
                key_due_date l) as (l' & E & P & S).
    { intros t Ht. exists (due_date_key t). split; [reflexivity|now apply Hk]. }
    exists l'. split; [exact E|]. split; [exact P|].
    intros i j a b Hi Hj Hab.
    apply (S i j a b _ _ Hi Hj (key_due_date_key a) (key_due_date_key b)).
    now apply due_precedes_key_lt. }
  destruct l as [|x l].
  - exists []. split; [reflexivity|]. split; [reflexivity|]. intros i j a b H. discriminate H.
  - destruct (has_due_date x) eqn:Hx.
    + apply (Hkey date_bool_key date_bool_key_lex). intros t Ht.
      assert (E : has_due_date t = true) by (rewrite <- Hx; apply Hu; [exact Ht|now left]).
      unfold has_due_date in E. unfold due_date_key.
      destruct (due_date t) as [d|]; [|discriminate]. eexists; eexists; reflexivity.
    + apply (Hkey sentinel_bool_key sentinel_bool_key_lex). intros t Ht.
      assert (E : has_due_date t = false) by (rewrite <- Hx; apply Hu; [exact Ht|now left]).
      unfold has_due_date in E. unfold due_date_key.
      destruct (due_date t) as [d|]; [discriminate|]. eexists; reflexivity.
Qed.

Lemma due_date_listing_uniform_sample :
  exists l', listing "due_date" [sample_far; sample_low; sample_late; sample_high_done]
             = Ok l' /\
             Permutation [sample_far; sample_low; sample_late; sample_high_done] l'.
Proof.
  destruct (due_date_listing_uniform [sample_far; sample_low; sample_late; sample_high_done])
    as (l' & E & P & _).
  - intros a b Ha Hb. simpl in Ha, Hb.
    decompose [or] Ha; decompose [or] Hb; subst; try reflexivity; contradiction.
  - exists l'. split; [exact E|exact P].
Defined.

Example due_date_listing_uniform_value :
  listing "due_date" [sample_far; sample_low; sample_late; sample_high_done]
  = Ok [sample_late; sample_low; sample_far; sample_high_done].
Proof. vm_compute. reflexivity. Qed.

(** ** The incomplete-tasks page *)

Lemma count_if_cons (test : Task -> bool) (t : Task) (tasks : list Task) :
  count_if test (t :: tasks) = bool_int (test t) + count_if test tasks.
Proof.
  unfold count_if. simpl. destruct (test t); simpl length; unfold bool_int; lia.
Qed.

Lemma count_due_from (today soon_threshold : date) (tasks : list Task) (o d s : Z) :
  fold_left
    (fun '(overdue, due_today, due_soon) t =>
       match due_date t with
       | Some d =>
           if d <? today then (overdue + 1, due_today, due_soon)
           else if d =? today then (overdue, due_today + 1, due_soon)
           else if d <=? soon_threshold then (overdue, due_today, due_soon + 1)
           else (overdue, due_today, due_soon)
       | None => (overdue, due_today, due_soon)
       end)
    tasks (o, d, s)
  = (o + count_if (is_overdue today) tasks,
     d + count_if (is_due_today today) tasks,
     s + count_if (is_due_soon today soon_threshold) tasks).
Proof.
  revert o d s. induction tasks as [|t tasks IH]; intros o d s.
  - unfold count_if. simpl. repeat f_equal; lia.
  - rewrite !count_if_cons. cbn [fold_left].
    assert (Hstep :
      match due_date t with
      | Some x =>
          if x <? today then (o + 1, d, s)
          else if x =? today then (o, d + 1, s)
          else if x <=? soon_threshold then (o, d, s + 1)
          else (o, d, s)
      | None => (o, d, s)
      end
      = (o + bool_int (is_overdue today t), d + bool_int (is_due_today today t),
         s + bool_int (is_due_soon today soon_threshold t))).
    { unfold is_overdue, is_due_today, is_due_soon, bool_int.
      destruct (due_date t) as [x|]; [|repeat f_equal; lia].
      destruct (Z.ltb_spec x today), (Z.eqb_spec x today), (Z.ltb_spec today x),
        (Z.leb_spec x soon_threshold); simpl; first [lia | repeat f_equal; lia]. }
    rewrite Hstep, IH. f_equal; [f_equal|]; lia.
Qed.

Lemma count_due_spec (today soon_threshold : date) (tasks : list Task) :
  count_due today soon_threshold tasks
  = (count_if (is_overdue today) tasks,
     count_if (is_due_today today) tasks,
     count_if (is_due_soon today soon_threshold) tasks).
Proof. unfold count_due. rewrite count_due_from. reflexivity. Qed.

Lemma count_if_filter (test keep : Task -> bool) (tasks : list Task) :
  count_if test (List.filter keep tasks) = count_if (fun t => keep t && test t) tasks.
Proof.
  unfold count_if. f_equal. f_equal.
  induction tasks as [|t tasks IH]; [reflexivity|]. simpl.
  destruct (keep t); simpl; [destruct (test t); [f_equal|]|]; exact IH.
Qed.

Section IncompletePage.
Variable strptime : string -> option date.
Variable ilike : string -> string -> bool.

Lemma incomplete_listing_nil : incomplete_listing [] = Ok [].
Proof. reflexivity. Qed.

(** What the incomplete-tasks route comes to. *)
Lemma incomplete_tasks_run (today : date) (table : list Task) :
  incomplete_tasks today (begin table) =
  match date_add today 1 with
  | Ok soon_threshold =>
      match incomplete_listing (List.filter (fun t => negb (completed t)) table) with
      | Ok l =>
          (Ok (RenderIncomplete
                 (mkIncompletePage l
                    (Z.of_nat (length (List.filter (fun t => negb (completed t)) table)))
                    (count_if (is_overdue today)
                       (List.filter (fun t => negb (completed t)) table))
                    (count_if (is_due_today today)
                       (List.filter (fun t => negb (completed t)) table))
                    (count_if (is_due_soon today soon_threshold)
                       (List.filter (fun t => negb (completed t)) table)))),
           begin table)
      | Raise _ =>
          (Ok (Redirect ep_index),
           mkEnv table ∅ [] []
                 [("An error occurred while loading incomplete tasks.", "danger")])
      end
  | Raise _ =>
      (Ok (Redirect ep_index),
       mkEnv table ∅ [] []
             [("An error occurred while loading incomplete tasks.", "danger")])
  end.
Proof.
  unfold incomplete_tasks, incomplete_tasks_body, handler_bind, query_all, lift,
    handler_ret, flash.
  cbn [begin rows identity_map pending_new pending_deleted flashes].
  destruct (List.filter (fun t => negb (completed t)) table) as [|x l] eqn:F.
  - destruct (date_add today 1); reflexivity.
  - destruct (date_add today 1) as [soon|e]; [|reflexivity].
    rewrite count_due_spec.
    destruct (incomplete_listing (x :: l)); reflexivity.
Qed.

(** X16. The incomplete-tasks page never answers with an error status:
    when tomorrow is a date it renders, and otherwise the exception is
    caught, one danger message is flashed and the response is the redirect
    to the listing.  No row changes either way. *)
Theorem incomplete_tasks_never_fails (today : date) (utcnow : datetime)
        (table : list Task) :
  snd (serve strptime ilike today utcnow ReqIncompleteTasks table) = table /\
  ((date_min <= today + 1 <= date_max /\
    (exists page,
       fst (serve strptime ilike today utcnow ReqIncompleteTasks table)
         = RenderIncomplete page) /\
    flashed strptime ilike today utcnow ReqIncompleteTasks table = []) \/
   (~ date_min <= today + 1 <= date_max /\
    fst (serve strptime ilike today utcnow ReqIncompleteTasks table) = Redirect ep_index /\
    flashed strptime ilike today utcnow ReqIncompleteTasks table
      = [("An error occurred while loading incomplete tasks.", "danger")])).
Proof.
  unfold serve, flashed, dispatch. rewrite incomplete_tasks_run.
  unfold date_add. destruct (decide (date_min <= today + 1 <= date_max)) as [H|H].
  - rewrite bool_decide_eq_true_2 by exact H.
    destruct (incomplete_listing_total (List.filter (fun t => negb (completed t)) table))
      as (l & -> & _).
    split; [reflexivity|]. left. split; [exact H|]. split; [eexists|]; reflexivity.
  - rewrite bool_decide_eq_false_2 by exact H.
    split; [reflexivity|]. right. split; [exact H|]. split; reflexivity.
Qed.

(** X17. When tomorrow is a date, the incomplete-tasks page lists exactly
    the incomplete rows of the table, each once, ordered by priority rank
    (High, Medium, Low, then any other priority) and within a rank by due
    date, earliest first, tasks without a due date last (with those due on
    the last day of the calendar); its total is their number and its three
    counters are the numbers of them that are overdue, due today, and due
    after today but at most one day ahead. *)
Theorem incomplete_tasks_page (today : date) (utcnow : datetime) (table : list Task) :
  date_min <= today + 1 <= date_max ->
  exists page,
    fst (serve strptime ilike today utcnow ReqIncompleteTasks table)
      = RenderIncomplete page /\
    Permutation (List.filter (fun t => negb (completed t)) table)
                (inc_incomplete_tasks page) /\
    (forall (i j : nat) (a b : Task),
       inc_incomplete_tasks page !! i = Some a ->
       inc_incomplete_tasks page !! j = Some b ->
       incomplete_rank a < incomplete_rank b \/
       (incomplete_rank a = incomplete_rank b /\ incomplete_due a < incomplete_due b) ->
       (i < j)%nat) /\
    inc_total_incomplete page = count_if (fun t => negb (completed t)) table /\
    inc_overdue_tasks page
      = count_if (fun t => negb (completed t) && is_overdue today t) table /\
    inc_due_today_tasks page
      = count_if (fun t => negb (completed t) && is_due_today today t) table /\
    inc_due_soon_tasks page
      = count_if (fun t => negb (completed t) && is_due_soon today (today + 1) t) table.
Proof.
  intros H. unfold serve, dispatch. rewrite incomplete_tasks_run, (date_add_ok _ _ H).
  destruct (incomplete_listing_total (List.filter (fun t => negb (completed t)) table))
    as (l & -> & P & S).
  eexists. split; [reflexivity|]. cbn [inc_incomplete_tasks inc_total_incomplete
    inc_overdue_tasks inc_due_today_tasks inc_due_soon_tasks].
  split; [exact P|]. split.
  - intros i j a b Hi Hj Hab.
    apply (S i j a b _ _ Hi Hj eq_refl eq_refl).
    fold (incomplete_rank a) (incomplete_rank b) (incomplete_due a) (incomplete_due b).
    simpl. destruct Hab as [Hlt|[-> Hlt]].
    + assert (E : (incomplete_rank a =? incomplete_rank b) = false) by lia.
      rewrite E. f_equal. lia.
    + rewrite Z.eqb_refl.
      assert (E : (incomplete_due a =? incomplete_due b) = false) by lia.
      rewrite E. f_equal. lia.
  - rewrite !count_if_filter. repeat split.
Qed.
End IncompletePage.

Lemma incomplete_tasks_page_sample :
  exists page,
    fst (serve sample_strptime sample_ilike sample_today sample_utcnow
           ReqIncompleteTasks sample_table) = RenderIncomplete page /\
    inc_total_incomplete page = count_if (fun t => negb (completed t)) sample_table /\
    inc_overdue_tasks page
      = count_if (fun t => negb (completed t) && is_overdue sample_today t) sample_table.
Proof.
  destruct (incomplete_tasks_page sample_strptime sample_ilike sample_today sample_utcnow
              sample_table) as (page & H1 & _ & _ & H4 & H5 & _).
  - unfold date_min, date_max, sample_today. lia.
  - exists page. split; [exact H1|]. split; [exact H4|exact H5].
Defined.

Example incomplete_tasks_page_value :
  fst (serve sample_strptime sample_ilike sample_today sample_utcnow
         ReqIncompleteTasks sample_table)
  = RenderIncomplete
      (mkIncompletePage [sample_high; sample_late; sample_medium; sample_low; sample_far]
                        5 1 1 1).
Proof. vm_compute. reflexivity. Qed.

(** X18. For one table and one day, the three counters of the
    incomplete-tasks page are the sizes of the three notification buckets
    of the listing page, whenever both pages render. *)
Theorem incomplete_counts_match_buckets (strptime : string -> option date)
        (ilike : string -> string -> bool) (today : date) (utcnow : datetime)
        (args : gmap string string) (table : list Task)
        (listed : IndexPage) (incomplete : IncompletePage) :
  fst (serve strptime ilike today utcnow (ReqIndex args) table) = RenderIndex listed ->
  fst (serve strptime ilike today utcnow ReqIncompleteTasks table)
    = RenderIncomplete incomplete ->
  inc_overdue_tasks incomplete = Z.of_nat (length (ix_overdue_tasks listed)) /\
  inc_due_today_tasks incomplete = Z.of_nat (length (ix_due_today_tasks listed)) /\
  inc_due_soon_tasks incomplete = Z.of_nat (length (ix_due_soon_tasks listed)).
Proof.
  rewrite serve_index, index_run. unfold serve at 1, dispatch.
  rewrite incomplete_tasks_run. cbn [begin rows fst].
  destruct (listing _ _) as [tasks|e]; simpl; [|destruct e; discriminate].
  destruct (date_add today 1) as [soon|e]; simpl; [|destruct e; discriminate].
  intros [= <-].
  destruct (incomplete_listing _) as [l|e]; simpl; [|discriminate].
  intros [= <-]. simpl. repeat split.
Qed.

Lemma incomplete_counts_match_buckets_sample :
  1 = Z.of_nat (length [sample_late]) /\
  1 = Z.of_nat (length [sample_medium]) /\
  1 = Z.of_nat (length [sample_low]).
Proof.
  apply (incomplete_counts_match_buckets sample_strptime sample_ilike sample_today
           sample_utcnow ∅ sample_table
           (mkIndexPage [sample_high; sample_high_done; sample_medium; sample_late;
                         sample_low; sample_far]
                        [sample_late] [sample_medium] [sample_low])
           (mkIncompletePage [sample_high; sample_late; sample_medium; sample_low; sample_far]
                             5 1 1 1)).
  - vm_compute. reflexivity.
  - vm_compute. reflexivity.
Defined.

(** ** The dashboard's counts and histogram *)

Lemma count_if_split (test : Task -> bool) (tasks : list Task) :
  count_if test tasks + count_if (fun t => negb (test t)) tasks = Z.of_nat (length tasks).
Proof.
  unfold count_if. induction tasks as [|t tasks IH]; [reflexivity|].
  simpl. destruct (test t); simpl; lia.
Qed.




Example dashboard_counts_value :
  fst (serve sample_strptime sample_ilike sample_today sample_utcnow
         ReqDashboard sample_streak_table)
  = RenderDashboard
      (mkDashboardPage 5 4 1 [("High", 1); ("Medium", 2); ("Low", 2)]
                       [0; 0; 0; 1; 0; 2; 1] 2).
Proof. vm_compute. reflexivity. Qed.

(** ** The completed-tasks page *)

Lemma count_if_Permutation (test : Task -> bool) (l l' : list Task) :
  Permutation l l' -> count_if test l = count_if test l'.
Proof.
  induction 1 as [|x l l' _ IH|x y l|l l' l'' _ IH1 _ IH2].
  - reflexivity.
  - rewrite !count_if_cons, IH. reflexivity.
  - rewrite !count_if_cons. lia.
  - congruence.
Qed.

Lemma count_if_le (test test' : Task -> bool) (tasks : list Task) :
  (forall t, test t = true -> test' t = true) ->
  count_if test tasks <= count_if test' tasks.
Proof.
  intros H. induction tasks as [|t tasks IH]; [reflexivity|].
  rewrite !count_if_cons. specialize (H t).
  destruct (test t), (test' t); unfold bool_int; lia.
Qed.

Lemma count_completed_from (today week_start week_end : date) (tasks : list Task)
      (a b : Z) :
  fold_left
    (fun '(completed_today, completed_this_week) t =>
       match completed_at t with
       | Some stamp =>
           let completion_date := dt_date stamp in
           let completed_today :=
             if completion_date =? today then completed_today + 1 else completed_today in
           let completed_this_week :=
             if (week_start <=? completion_date) && (completion_date <=? week_end)
             then completed_this_week + 1 else completed_this_week in
           (completed_today, completed_this_week)
       | None => (completed_today, completed_this_week)
       end)
    tasks (a, b)
  = (a + count_if (completed_on today) tasks,
     b + count_if (fun t => match completed_at t with
                            | Some stamp =>
                                (week_start <=? dt_date stamp) && (dt_date stamp <=? week_end)
                            | None => false
                            end) tasks).
Proof.
  revert a b. induction tasks as [|t tasks IH]; intros a b.
  - unfold count_if. simpl. f_equal; lia.
  - rewrite !count_if_cons. cbn [fold_left]. unfold completed_on at 1.
    destruct (completed_at t) as [stamp|]; cbn zeta.
    + rewrite IH.
      destruct (dt_date stamp =? today),
        ((week_start <=? dt_date stamp) && (dt_date stamp <=? week_end));
        unfold bool_int; f_equal; lia.
    + rewrite IH. unfold bool_int. f_equal; lia.
Qed.

Lemma week_of (today d : date) :
  ((today - weekday today <=? d) && (d <=? today - weekday today + 6))
  = ((d - 1) / 7 =? (today - 1) / 7).
Proof.
  unfold weekday.
  assert (E : (today + 6) mod 7 = (today - 1) mod 7).
  { replace (today + 6) with (today - 1 + 1 * 7) by lia. apply Z.mod_add. lia. }
  rewrite E.
  destruct (Z.leb_spec (today - (today - 1) mod 7) d),
    (Z.leb_spec d (today - (today - 1) mod 7 + 6)),
    (Z.eqb_spec ((d - 1) / 7) ((today - 1) / 7)); simpl; try reflexivity; exfalso;
    Z.div_mod_to_equations; lia.
Qed.

Lemma week_start_ok (today : date) :
  date_min <= today <= date_max -> date_min <= today + - weekday today <= date_max.
Proof.
  unfold date_min, date_max, weekday. intros H.
  assert (E : (today + 6) mod 7 = (today - 1) mod 7).
  { replace (today + 6) with (today - 1 + 1 * 7) by lia. apply Z.mod_add. lia. }
  rewrite E. Z.div_mod_to_equations. lia.
Qed.

Lemma insert_desc_Permutation (t : Task) (l : list Task) :
  Permutation (t :: l) (insert_desc t l).
Proof.
  induction l as [|u l IH]; simpl; [reflexivity|].
  destruct (lex_lt (stamp_key u) (stamp_key t)); [reflexivity|].
  rewrite perm_swap. now constructor.
Qed.

Lemma sample_order_by_Permutation (l : list Task) : Permutation l (sample_order_by l).
Proof.
  unfold sample_order_by.
  assert (H : forall acc, Permutation (acc ++ l) (fold_left (fun acc t => insert_desc t acc) l acc)).
  { induction l as [|t l IH]; intros acc; simpl.
    - now rewrite app_nil_r.
    - rewrite <- IH. rewrite <- insert_desc_Permutation.
      rewrite Permutation_app_comm. simpl. constructor. apply Permutation_app_comm. }
  apply (H []).
Qed.

Section CompletedPage.
Variable order_by_completed_at_desc : list Task -> list Task.
Hypothesis order_by_Permutation :
  forall l, Permutation l (order_by_completed_at_desc l).

Lemma completed_tasks_run (today : date) (table : list Task) :
  date_min <= today <= date_max ->
  today + - weekday today + 6 <= date_max ->
  completed_tasks order_by_completed_at_desc today (begin table) =
  (Ok (mkCompletedPage
         (order_by_completed_at_desc (List.filter (fun t => completed t) table))
         (Z.of_nat (length (order_by_completed_at_desc
                              (List.filter (fun t => completed t) table))))
         (count_if (completed_on today)
            (order_by_completed_at_desc (List.filter (fun t => completed t) table)))
         (count_if (completed_in_week_of today)
            (order_by_completed_at_desc (List.filter (fun t => completed t) table)))),
   begin table).
Proof.
  intros Ht Hw. pose proof (week_start_ok today Ht) as Hs.
  unfold completed_tasks, handler_bind, query_all, lift, handler_ret.
  cbn [begin rows]. rewrite (date_add_ok _ _ Hs).
  rewrite date_add_ok by (unfold date_min in *; lia).
  unfold count_completed. rewrite count_completed_from.
  assert (E : forall l,
    count_if (fun t => match completed_at t with
                       | Some stamp =>
                           (today + - weekday today <=? dt_date stamp)
                           && (dt_date stamp <=? today + - weekday today + 6)
                       | None => false
                       end) l
    = count_if (completed_in_week_of today) l).
  { intros l. unfold count_if. do 2 f_equal. apply filter_ext.
    intros t. unfold completed_in_week_of.
    destruct (completed_at t) as [stamp|]; [|reflexivity].
    replace (today + - weekday today) with (today - weekday today) by lia.
    apply week_of. }
  rewrite E. reflexivity.
Qed.

(** X20. When today is a date and the Sunday of its week is one too, the
    completed-tasks page renders without touching the session: it lists
    exactly the completed rows of the table, each once; its total is their
    number and its count for today is the number of them whose completion
    time falls on today. *)
Theorem completed_tasks_page (today : date) (table : list Task) :
  date_min <= today <= date_max ->
  today + - weekday today + 6 <= date_max ->
  exists page,
    completed_tasks order_by_completed_at_desc today (begin table)
      = (Ok page, begin table) /\
    Permutation (List.filter (fun t => completed t) table) (cp_completed_tasks page) /\
    cp_total_completed page = count_if (fun t => completed t) table /\
    cp_completed_today page
      = count_if (fun t => completed t && completed_on today t) table.
Proof.
  intros Ht Hw. rewrite (completed_tasks_run today table Ht Hw).
  eexists. split; [reflexivity|].
  cbn [cp_completed_tasks cp_total_completed cp_completed_today].
  split; [apply order_by_Permutation|]. split.
  - unfold count_if. now rewrite <- (Permutation_length (order_by_Permutation _)).
  - rewrite <- (count_if_Permutation _ _ _ (order_by_Permutation _)).
    apply count_if_filter.
Qed.

(** X21. On the completed-tasks page the count for this week is the number
    of completed rows whose completion date lies in the Monday-to-Sunday
    week of today; the count for today is at most the count for this week,
    which is at most the total. *)
Theorem completed_this_week_spec (today : date) (table : list Task) :
  date_min <= today <= date_max ->
  today + - weekday today + 6 <= date_max ->
  exists page,
    completed_tasks order_by_completed_at_desc today (begin table)
      = (Ok page, begin table) /\
    weekday (today - weekday today) = 0 /\
    cp_completed_this_week page
      = count_if (fun t => completed t && completed_in_week_of today t) table /\
    cp_completed_today page <= cp_completed_this_week page <= cp_total_completed page.
Proof.
  intros Ht Hw. rewrite (completed_tasks_run today table Ht Hw).
  eexists. split; [reflexivity|].
  cbn [cp_total_completed cp_completed_today cp_completed_this_week].
  split; [|split; [|split]].
  - unfold weekday.
    assert (E : forall x, (x + 6) mod 7 = (x - 1) mod 7).
    { intros x. replace (x + 6) with (x - 1 + 1 * 7) by lia. apply Z.mod_add. lia. }
    rewrite !E. Z.div_mod_to_equations. lia.
  - rewrite <- (count_if_Permutation _ _ _ (order_by_Permutation _)).
    apply count_if_filter.
  - apply count_if_le. intros t. unfold completed_on, completed_in_week_of.
    destruct (completed_at t) as [stamp|]; [|discriminate].
    intros H. apply Z.eqb_eq in H. rewrite H. apply Z.eqb_refl.
  - pose proof (count_if_split (completed_in_week_of today)
                  (order_by_completed_at_desc (List.filter (fun t => completed t) table))) as H.
    unfold count_if in *. lia.
Qed.
End CompletedPage.

Lemma completed_tasks_page_sample :
  exists page,
    completed_tasks sample_order_by sample_today (begin sample_streak_table)
      = (Ok page, begin sample_streak_table) /\
    cp_total_completed page = count_if (fun t => completed t) sample_streak_table.
Proof.
  destruct (completed_tasks_page sample_order_by sample_order_by_Permutation
              sample_today sample_streak_table) as (page & H1 & _ & H3 & _).
  - unfold date_min, date_max, sample_today. lia.
  - vm_compute. discriminate.
  - exists page. split; [exact H1|exact H3].
Defined.

Lemma completed_this_week_spec_sample :
  exists page,
    completed_tasks sample_order_by sample_today (begin sample_streak_table)
      = (Ok page, begin sample_streak_table) /\
    cp_completed_today page <= cp_completed_this_week page <= cp_total_completed page.
Proof.
  destruct (completed_this_week_spec sample_order_by sample_order_by_Permutation
              sample_today sample_streak_table) as (page & H1 & _ & _ & H4).
  - unfold date_min, date_max, sample_today. lia.
  - vm_compute. discriminate.
  - exists page. split; [exact H1|exact H4].
Defined.

(** 2026-11-03 is a Tuesday: its week began on the 2nd; of the four
    completed tasks, most recent first, one was completed today, three this
    week. *)
Example completed_tasks_page_value :
  fst (completed_tasks sample_order_by sample_today (begin sample_streak_table))
  = Ok (mkCompletedPage
          (map (fun i => default sample_high (get i sample_streak_table)) [1; 3; 2; 4])
          4 1 3).
Proof. vm_compute. reflexivity. Qed.

(** ** Rows always carry a creation time *)

Lemma Forall_serve (strptime : string -> option date) (ilike : string -> string -> bool)
      (P : Task -> Prop) (today : date) (utcnow : datetime) (req : Request)
      (table : list Task) :
  (forall tc pr due, P (created_task table tc pr due utcnow)) ->
  (forall t, P t -> P (toggled utcnow t)) ->
  (forall tc pr due t, P t -> P (edited tc pr due t)) ->
  Forall P table ->
  Forall P (snd (serve strptime ilike today utcnow req table)).
Proof.
  intros Hnew Htog Hed H. rewrite List.Forall_forall in *. intros r' Hr'.
  destruct req as [args|form|i|i|method task_id form| |].
  - rewrite serve_keeps_rows in Hr' by apply keeps_rows_index. now apply H.
  - rewrite serve_add in Hr'.
    assert (Hc : forall tc pr due,
      In r' (if str_truthy tc then table ++ [created_task table tc pr due utcnow] else table) ->
      P r').
    { intros tc pr due Hin. destruct (str_truthy tc); [|now apply H].
      apply in_app_or in Hin. destruct Hin as [Hin|[<-|[]]]; [now apply H|apply Hnew]. }
    destruct (form !! "task") as [tc|]; [|now apply H].
    destruct (form !! "priority") as [pr|]; [|now apply H].
    destruct (given (form !! "due_date")) as [s|]; [|eapply Hc; exact Hr'].
    destruct (strptime s) as [d|]; [|now apply H].
    destruct (d <? today); [now apply H|eapply Hc; exact Hr'].
  - rewrite serve_complete in Hr'. destruct (get i table) as [t|] eqn:G; [|now apply H].
    apply In_replace_row in Hr'. destruct Hr' as [->|Hr']; [|now apply H].
    apply Htog, H. eapply get_In. exact G.
  - rewrite serve_delete in Hr'. destruct (get i table) as [t|]; [|now apply H].
    apply In_remove_row in Hr'. apply H. tauto.
  - rewrite serve_edit in Hr'. destruct (get task_id table) as [t|] eqn:G; [|now apply H].
    assert (He : forall tc pr due,
      In r' (replace_row task_id (edited tc pr due t) table) -> P r').
    { intros tc pr due Hin. apply In_replace_row in Hin.
      destruct Hin as [->|Hin]; [|now apply H]. apply Hed, H. eapply get_In. exact G. }
    destruct method; [now apply H|].
    destruct (form !! "task") as [tc|]; [|now apply H].
    destruct (form !! "priority") as [pr|]; [|now apply H].
    destruct (given (form !! "due_date")) as [s|]; [|eapply He; exact Hr'].
    destruct (strptime s) as [d|]; [|now apply H].
    destruct (d <? today); [now apply H|eapply He; exact Hr'].
  - rewrite serve_keeps_rows in Hr' by apply keeps_rows_dashboard. now apply H.
  - rewrite serve_keeps_rows in Hr' by apply keeps_rows_incomplete_tasks. now apply H.
Qed.

(** X22. Every row of every table the application can reach has a creation
    time and a positive id. *)
Theorem reachable_rows_created (strptime : string -> option date)
        (ilike : string -> string -> bool) (table : list Task) :
  reachable strptime ilike table ->
  Forall (fun t => created_at t <> None /\ 1 <= id t) table.
Proof.
  induction 1 as [|today utcnow req table _ IH]; [constructor|].
  apply Forall_serve; [| | |exact IH].
  - intros tc pr due. simpl. split; [discriminate|].
    destruct (next_id_is table) as [->|(r & Hr & ->)]; [lia|].
    rewrite List.Forall_forall in IH. specialize (IH r Hr). lia.
  - intros t Ht. rewrite toggled_fields. exact Ht.
  - intros tc pr due t Ht. exact Ht.
Qed.

Lemma reachable_rows_created_sample :
  Forall (fun t => created_at t <> None /\ 1 <= id t)
         (snd (serve sample_strptime sample_ilike sample_today sample_utcnow
                 (ReqAdd (form_of "buy stamps" "Low" None)) [])).
Proof.
  apply (reachable_rows_created sample_strptime sample_ilike).
  apply reachable_serve. apply reachable_empty.
Defined.
